(** * Unified GitHub Manager: workspace reconciliation

    A shallow embedding of [menu-designe.py]: the helpers [run], [safe_run],
    [log_action], [list_repos] and [fix_remote_with_token], and the three
    workspace functions [clone_to_workspace], [batch_workspace_manager] and
    [per_repo_manager].  The prompts for creating, renaming and deleting
    remote repositories, [upload_local_folder] and the main menu are not
    part of it.

    The program is a sequence of calls to the [git] executable and to the
    hosting API, with Python exceptions for failures.  It is modelled in a
    state-and-exception monad over a [World] that holds the file system, the
    origin remote of every local repository, the answers typed at the
    prompts, and a trace of everything the program shows, logs or runs. *)

From Stdlib Require Import ZArith Lia Bool List Ascii String FunInd Sorted.
From stdpp Require Import gmap strings.

Import ListNotations.
Local Open Scope string_scope.
Local Open Scope list_scope.
Local Open Scope Z_scope.

(** ** Python string operations

    A Python [str] is held as its UTF-8 encoding, byte by byte.  The
    needles searched for by the program ("https://", "@", ",", "/") are
    ASCII, and an ASCII byte never occurs inside a multi-byte UTF-8
    sequence, so searching bytes and searching code points agree. *)

Module PyStr.

(** [s.startswith(p)] *)
Fixpoint startswith (p s : string) : bool :=
  match p, s with
  | EmptyString, _ => true
  | String _ _, EmptyString => false
  | String a p', String b s' => Ascii.eqb a b && startswith p' s'
  end.

(** [sub in s] *)
Fixpoint contains (sub s : string) : bool :=
  startswith sub s ||
  match s with
  | EmptyString => false
  | String _ s' => contains sub s'
  end.

(** [s.replace("", new)]: [new] goes before every character and at the end. *)
Fixpoint replace_empty (new s : string) : string :=
  match s with
  | EmptyString => new
  | String c s' => new +:+ String c (replace_empty new s')
  end.

(** The left-to-right scan of [s.replace(old, new)] for a non-empty [old]:
    [skip] counts the characters of a matched occurrence still to be passed
    over, so that occurrences never overlap. *)
Fixpoint replace_from (skip : nat) (old new s : string) : string :=
  match s with
  | EmptyString => EmptyString
  | String c s' =>
      match skip with
      | S k => replace_from k old new s'
      | O =>
          if startswith old s
          then new +:+ replace_from (Nat.pred (String.length old)) old new s'
          else String c (replace_from 0 old new s')
      end
  end.

(** [s.replace(old, new)] *)
Definition replace (old new s : string) : string :=
  match old with
  | EmptyString => replace_empty new s
  | String _ _ => replace_from 0 old new s
  end.

(** White space, as [str.strip()] and [int()] see it.  Python takes for
    white space the code points U+0009-U+000D, U+001C-U+0020, U+0085, U+00A0,
    U+1680, U+2000-U+200A, U+2028, U+2029, U+202F, U+205F and U+3000.  In
    UTF-8 the first ten are one byte each, U+0085 and U+00A0 are two bytes
    and the others three. *)

(** The white space of one byte: tab, line feed, vertical tab, form feed,
    carriage return, the four separators 0x1c-0x1f, and space. *)
Definition isspace (c : ascii) : bool :=
  let n := nat_of_ascii c in
  ((9 <=? n)%nat && (n <=? 13)%nat) || ((28 <=? n)%nat && (n <=? 32)%nat).

(** U+0085 (C2 85) and U+00A0 (C2 A0). *)
Definition isspace2 (a b : ascii) : bool :=
  (nat_of_ascii a =? 194)%nat
  && ((nat_of_ascii b =? 133)%nat || (nat_of_ascii b =? 160)%nat).

(** U+1680 (E1 9A 80); U+2000-U+200A, U+2028, U+2029 and U+202F
    (E2 80 80-8A, E2 80 A8, E2 80 A9, E2 80 AF); U+205F (E2 81 9F);
    U+3000 (E3 80 80). *)
Definition isspace3 (a b c : ascii) : bool :=
  let a := nat_of_ascii a in
  let b := nat_of_ascii b in
  let c := nat_of_ascii c in
  ((a =? 225) && (b =? 154) && (c =? 128)
   || (a =? 226) && (b =? 128)
      && ((128 <=? c) && (c <=? 138) || (c =? 168) || (c =? 169) || (c =? 175))
   || (a =? 226) && (b =? 129) && (c =? 159)
   || (a =? 227) && (b =? 128) && (c =? 128))%nat.

(** [s.lstrip()] *)
Fixpoint lstrip (s : string) : string :=
  match s with
  | EmptyString => EmptyString
  | String a s1 =>
      if isspace a then lstrip s1
      else
        match s1 with
        | EmptyString => s
        | String b s2 =>
            if isspace2 a b then lstrip s2
            else
              match s2 with
              | EmptyString => s
              | String c s3 => if isspace3 a b c then lstrip s3 else s
              end
        end
  end.

(** [s.rstrip()]: the scan comes back from the end of [s]; what follows a
    character has been stripped to nothing when only white space follows
    it, and to the last bytes of a white-space character when that
    character starts here. *)
Fixpoint rstrip (s : string) : string :=
  match s with
  | EmptyString => EmptyString
  | String a s' =>
      match rstrip s' with
      | EmptyString => if isspace a then EmptyString else String a EmptyString
      | String b EmptyString =>
          if isspace2 a b then EmptyString else String a (String b EmptyString)
      | String b (String c EmptyString) =>
          if isspace3 a b c then EmptyString
          else String a (String b (String c EmptyString))
      | t => String a t
      end
  end.

(** [s.strip()] *)
Definition strip (s : string) : string := rstrip (lstrip s).

(** [s.split(sep)] for a one-character separator. *)
Fixpoint split (sep : ascii) (s : string) : list string :=
  match s with
  | EmptyString => [EmptyString]
  | String c s' =>
      if Ascii.eqb c sep then EmptyString :: split sep s'
      else
        match split sep s' with
        | [] => [String c EmptyString]
        | piece :: pieces => String c piece :: pieces
        end
  end.

Definition digit_of (c : ascii) : option Z :=
  let n := nat_of_ascii c in
  if (48 <=? n)%nat && (n <=? 57)%nat then Some (Z.of_nat n - 48) else None.

(** The digits of an integer literal, most significant first; single
    underscores may separate digits.  [acc] is the value read so far and
    [after_digit] tells whether the previous character was a digit. *)
Fixpoint int_digits (acc : Z) (after_digit : bool) (s : string) : option Z :=
  match s with
  | EmptyString => if after_digit then Some acc else None
  | String c s' =>
      match digit_of c with
      | Some d => int_digits (10 * acc + d) true s'
      | None =>
          if Ascii.eqb c "_" && after_digit
          then match s' with
               | EmptyString => None
               | String c' _ =>
                   match digit_of c' with
                   | Some _ => int_digits acc false s'
                   | None => None
                   end
               end
          else None
      end
  end.

(** [int(s)]: surrounding white space, an optional sign, decimal digits.
    [None] stands for [ValueError].  The digits are those of the ASCII
    range; Python also reads the decimal digits of other scripts, which
    count as invalid here. *)
Definition int (s : string) : option Z :=
  match strip s with
  | String "-" s' => option_map Z.opp (int_digits 0 false s')
  | String "+" s' => int_digits 0 false s'
  | s' => int_digits 0 false s'
  end.

(** [s <= t] on strings, character by character. *)
Fixpoint leb (s t : string) : bool :=
  match s, t with
  | EmptyString, _ => true
  | String _ _, EmptyString => false
  | String a s', String b t' =>
      if (nat_of_ascii a <? nat_of_ascii b)%nat then true
      else if (nat_of_ascii b <? nat_of_ascii a)%nat then false
      else leb s' t'
  end.

Fixpoint insert_sorted (x : string) (xs : list string) : list string :=
  match xs with
  | [] => [x]
  | y :: ys => if leb x y then x :: xs else y :: insert_sorted x ys
  end.

(** [sorted(xs)] on a list of strings. *)
Definition sorted (xs : list string) : list string :=
  fold_right insert_sorted [] xs.

(** [xs[i]]: a negative index counts from the end; [None] stands for
    [IndexError]. *)
Definition index {A} (xs : list A) (i : Z) : option A :=
  let n := Z.of_nat (List.length xs) in
  if (0 <=? i) && (i <? n) then nth_error xs (Z.to_nat i)
  else if (- n <=? i) && (i <? 0) then nth_error xs (Z.to_nat (n + i))
  else None.

Definition lower_char (c : ascii) : ascii :=
  let n := nat_of_ascii c in
  if (65 <=? n)%nat && (n <=? 90)%nat then ascii_of_nat (n + 32) else c.

(** [s.lower()] on the ASCII range. *)
Fixpoint lower (s : string) : string :=
  match s with
  | EmptyString => EmptyString
  | String c s' => String (lower_char c) (lower s')
  end.

(** [s[len(p):]] when [s] starts with [p]. *)
Fixpoint strip_prefix (p s : string) : option string :=
  match p, s with
  | EmptyString, _ => Some s
  | String _ _, EmptyString => None
  | String a p', String b s' =>
      if Ascii.eqb a b then strip_prefix p' s' else None
  end.

End PyStr.

(** ** Data model *)

(** The attributes of a PyGithub [Repository] that the program reads. *)
Record Repository := {
  name : string;
  full_name : string;
  clone_url : string;
  private : bool;
}.

(** The command lines handed to [subprocess]; [argv] gives each one as the
    list of strings the source writes. *)
Inductive GitCmd :=
| Clone (url dst : string)
| RemoteGetUrl (repo_path : string)
| RemoteSetUrl (repo_path new : string)
| Pull (path : string)
| AddAll (path : string)
| Commit (path msg : string)
| Push (path : string)
| ConfigSet (path key value : string).

Definition argv (cmd : GitCmd) : list string :=
  match cmd with
  | Clone url dst => ["git"; "clone"; url; dst]
  | RemoteGetUrl p => ["git"; "-C"; p; "remote"; "get-url"; "origin"]
  | RemoteSetUrl p new => ["git"; "-C"; p; "remote"; "set-url"; "origin"; new]
  | Pull p => ["git"; "-C"; p; "pull"]
  | AddAll p => ["git"; "-C"; p; "add"; "."]
  | Commit p msg => ["git"; "-C"; p; "commit"; "-m"; msg]
  | Push p => ["git"; "-C"; p; "push"]
  | ConfigSet p key value => ["git"; "-C"; p; "config"; key; value]
  end.

(** How an invocation of the executable ends: it exits with a status, or it
    cannot be started at all ([OSError] in Python). *)
Inductive Outcome :=
| Exited (returncode : Z)
| NotStarted.

(** The Python exceptions that occur in the modelled functions.  All of them
    derive from [Exception]. *)
Inductive Exn :=
| CalledProcessError (cmd : GitCmd) (returncode : Z)
| OSError (what : string)
| GithubException (status : Z)
| ValueError (literal : string)
| IndexError
| EOFError.

Definition is_CalledProcessError (e : Exn) : bool :=
  match e with CalledProcessError _ _ => true | _ => false end.

(** [except Exception] *)
Definition is_Exception (e : Exn) : bool := true.

(** What [console.print] shows.  The constructors carry the values that the
    f-strings of the source interpolate. *)
Inductive Message :=
| Text (line : string)                         (* a fixed line, panel or menu entry *)
| Rows (title : string) (repos : list Repository)  (* a numbered rich Table *)
| Launch (cmd : GitCmd)                        (* run: the echoed command line *)
| FetchFailed (e : Exn)                        (* Failed to fetch repos: {e} *)
| AlreadyExists (name : string)                (* Already exists, skipping: {r.name} *)
| Cloning (full_name : string)                 (* Cloning {r.full_name} ... *)
| Cloned (name : string)                       (* Cloned {r.name} *)
| CloneFailedFor (name : string) (e : Exn)     (* Failed to clone {r.name}: {e} *)
| RepoHeading (repo_name : string)             (* the folder line before each repo *)
| Pushed                                       (* Pushed *)
| NothingToCommit                              (* Nothing to commit *)
| FailedFor (repo_name : string) (e : Exn)     (* Failed for {repo_name}: {e} *)
| NotARepo (path : string)                     (* Path is not a git repo: {path} *)
| ClonedTo (name path : string)                (* Cloned {repo.name} -> {path} *)
| CloneFailed (e : Exn)                        (* Clone failed: {e} *)
| Pulled                                       (* Pulled *)
| PullFailed (e : Exn)                         (* Pull failed: {e} *)
| PushFailed (e : Exn)                         (* Push failed: {e} *)
| Synced                                       (* Synced *)
| NothingToSync                                (* Nothing to sync *)
| SyncFailed (e : Exn).                        (* Sync failed: {e} *)

(** The lines given to [log_action]. *)
Inductive LogLine :=
| LogUpdatedRemote (repo_path : string)        (* Updated remote for {repo_path} *)
| LogCloned (full_name dst : string)           (* Cloned {r.full_name} -> {dst} *)
| LogPulled (repo_name : string)               (* Pulled {repo_name} *)
| LogPushed (repo_name : string)               (* Pushed {repo_name} *)
| LogError (repo_name : string) (e : Exn)      (* Error {repo_name}: {e} *)
| LogPushedLocal (path : string)               (* Pushed local {path} *)
| LogSyncedLocal (path : string).              (* Synced local {path} *)

(** Everything observable that the program does, in order. *)
Inductive Event :=
| Print (m : Message)
| Log (l : LogLine)
| Exec (cmd : GitCmd) (o : Outcome)
| Makedirs (path : string).

Inductive FileKind := RegularFile | Directory.

Record World := {
  clock : nat;                        (* external calls made so far *)
  fs : gmap string FileKind;          (* the paths that exist *)
  remotes : gmap string string;       (* repository path -> origin URL *)
  stdin : list string;                (* the lines still to be typed *)
  trace : list Event;
}.

(** ** The monad: state and exceptions *)

Inductive Result (A : Type) :=
| Ok (a : A)
| Raise (e : Exn).
Arguments Ok {A} a.
Arguments Raise {A} e.

Definition M (A : Type) : Type := World -> Result A * World.

Definition ret {A} (a : A) : M A := fun w => (Ok a, w).

Definition bind {A B} (m : M A) (k : A -> M B) : M B :=
  fun w =>
    match m w with
    | (Ok a, w') => k a w'
    | (Raise e, w') => (Raise e, w')
    end.

Definition raise {A} (e : Exn) : M A := fun w => (Raise e, w).

(** [try: body / except <handles> as e: handler e] *)
Definition try_except {A} (body : M A) (handles : Exn -> bool)
    (handler : Exn -> M A) : M A :=
  fun w =>
    match body w with
    | (Ok a, w') => (Ok a, w')
    | (Raise e, w') => if handles e then handler e w' else (Raise e, w')
    end.

Declare Scope py_scope.
Delimit Scope py_scope with py.
Notation "x <- m ;; k" := (bind m (fun x => k))
  (at level 100, m at next level, k at level 200, right associativity,
   only parsing) : py_scope.
Notation "m ;; k" := (bind m (fun _ => k))
  (at level 100, k at level 200, right associativity, only parsing) : py_scope.
Local Open Scope py_scope.

(** [for x in xs: body x]; an exception that leaves the body ends the loop. *)
Fixpoint for_each {A} (xs : list A) (body : A -> M unit) : M unit :=
  match xs with
  | [] => ret tt
  | x :: xs' => body x ;; for_each xs' body
  end.

Definition emit (e : Event) : M unit :=
  fun w =>
    (Ok tt, {| clock := clock w; fs := fs w; remotes := remotes w;
               stdin := stdin w; trace := trace w ++ [e] |}).

Definition console_print (m : Message) : M unit := emit (Print m).

(** [log_action]: appends a line to the log file; every failure of doing so
    is passed over inside the function. *)
Definition log_action (l : LogLine) : M unit := emit (Log l).

Definition get_world : M World := fun w => (Ok w, w).

(** The line feed that ends the output of a command. *)
Definition LF : string := String "010" EmptyString.

(** ** Configuration *)

Definition WORKSPACE : string := "/home/gost/7heBlackLand".
Definition DEFAULT_COMMIT_MSG : string := "Auto sync via Unified Manager".
Definition DEFAULT_GIT_NAME : string := "7heBlackLand Bot".
Definition DEFAULT_GIT_EMAIL : string := "bot@7heblackland.dev".

(** ** The file system *)

Fixpoint ends_with_slash (s : string) : bool :=
  match s with
  | EmptyString => false
  | String c EmptyString => Ascii.eqb c "/"
  | String _ s' => ends_with_slash s'
  end.

(** [os.path.join(a, b)] on POSIX. *)
Definition path_join (a b : string) : string :=
  if PyStr.startswith "/" b then b
  else if String.eqb a "" || ends_with_slash a then a +:+ b
  else a +:+ "/" +:+ b.

Definition path_exists (p : string) (w : World) : bool :=
  match fs w !! p with Some _ => true | None => false end.

Definition path_isdir (p : string) (w : World) : bool :=
  match fs w !! p with Some Directory => true | _ => false end.

Definition os_path_exists (p : string) : M bool :=
  fun w => (Ok (path_exists p w), w).

Definition os_path_isdir (p : string) : M bool :=
  fun w => (Ok (path_isdir p w), w).

(** [p[:p.rfind("/") + 1]] *)
Fixpoint upto_last_slash (p : string) : string :=
  match p with
  | EmptyString => EmptyString
  | String c p' =>
      if PyStr.contains "/" p' then String c (upto_last_slash p')
      else if Ascii.eqb c "/" then "/" else EmptyString
  end.

(** [s.rstrip("/")] *)
Fixpoint rstrip_slash (s : string) : string :=
  match s with
  | EmptyString => EmptyString
  | String c s' =>
      match rstrip_slash s' with
      | EmptyString => if Ascii.eqb c "/" then EmptyString else String c EmptyString
      | t => String c t
      end
  end.

(** [os.path.dirname(p)] on POSIX. *)
Definition dirname (p : string) : string :=
  let head := upto_last_slash p in
  if String.eqb (rstrip_slash head) "" then head else rstrip_slash head.

(** The name of [path] inside [dir], when [path] is an entry of [dir]. *)
Definition entry_of (dir path : string) : option string :=
  match PyStr.strip_prefix dir path with
  | Some (String "/" entry) =>
      if String.eqb entry "" || PyStr.contains "/" entry then None
      else Some entry
  | _ => None
  end.

(** [os.listdir(dir)]; the order is the file system's. *)
Definition os_listdir (dir : string) : M (list string) :=
  fun w => (Ok (omap (entry_of dir) (map fst (map_to_list (fs w)))), w).

(** [os.makedirs(p, exist_ok=True)]: fails when [p] is a regular file.  The
    parents of [p] are not recorded. *)
Definition os_makedirs (p : string) : M unit :=
  fun w =>
    match fs w !! p with
    | Some RegularFile =>
        (Raise (OSError p),
         {| clock := clock w; fs := fs w; remotes := remotes w;
            stdin := stdin w; trace := trace w ++ [Makedirs p] |})
    | _ =>
        (Ok tt,
         {| clock := clock w; fs := <[p := Directory]> (fs w);
            remotes := remotes w; stdin := stdin w;
            trace := trace w ++ [Makedirs p] |})
    end.

(** ** Prompts *)

Definition read_line : M string :=
  fun w =>
    match stdin w with
    | [] => (Raise EOFError, w)
    | line :: rest =>
        (Ok line,
         {| clock := clock w; fs := fs w; remotes := remotes w;
            stdin := rest; trace := trace w |})
    end.

(** [Prompt.ask(text, default=d)]: an empty answer gives the default;
    any other answer is stripped. *)
Definition prompt_ask (text : string) (default : option string) : M string :=
  console_print (Text text) ;;
  line <- read_line ;;
  match default with
  | Some d => if String.eqb line "" then ret d else ret (PyStr.strip line)
  | None => ret (PyStr.strip line)
  end.

(** The answers that [Confirm.ask] reads until one of them is valid. *)
Fixpoint confirm_answer (default : bool) (lines : list string)
    : option bool * list string :=
  match lines with
  | [] => (None, [])
  | line :: rest =>
      if String.eqb line "" then (Some default, rest)
      else
        let v := PyStr.lower (PyStr.strip line) in
        if String.eqb v "y" then (Some true, rest)
        else if String.eqb v "n" then (Some false, rest)
        else confirm_answer default rest
  end.

(** [Confirm.ask(text, default=d)] *)
Definition confirm_ask (text : string) (default : bool) : M bool :=
  console_print (Text text) ;;
  fun w =>
    let '(answer, rest) := confirm_answer default (stdin w) in
    let w' := {| clock := clock w; fs := fs w; remotes := remotes w;
                 stdin := rest; trace := trace w |} in
    match answer with
    | Some b => (Ok b, w')
    | None => (Raise EOFError, w')
    end.

(** ** The environment

    What the program cannot decide is left to the environment: the access
    token read at start-up, how each invocation of [git] ends, what a
    [git clone] that failed has left behind, and what the hosting API
    answers.  The environment is consulted with the number of external calls
    made so far, so the same command may end differently each time. *)

(** What a [git clone] that exited with a failure has left at its
    destination.  As a rule [git] removes what it has created; when it is
    killed it cannot do so, and what is there depends on how far it had
    come; after "Clone succeeded, but checkout failed" it leaves the
    repository, with its [.git] directory and the origin remote. *)
Inductive Leftover :=
| NoLeftover           (* the destination was removed, or never created *)
| LeftDirectory        (* the destination directory alone *)
| LeftGitDirectory     (* and [.git] in it, no origin remote yet *)
| LeftRepository.      (* and the origin remote: all but the checkout *)

Record Env := {
  TOKEN : string;                            (* the access token *)
  git : nat -> GitCmd -> Outcome;            (* how each invocation ends *)
  left_behind : nat -> Leftover;             (* by a clone that failed *)
  get_repos : nat -> Exn + list Repository;  (* the answer of the API *)
  abspath : string -> string;
    (* os.path.abspath(os.path.expanduser(p)): depends on the working
       directory and the home directory of the process *)
}.

Section Manager.

Variable env : Env.

Definition succeeded (o : Outcome) : bool :=
  match o with
  | Exited rc => rc =? 0
  | NotStarted => false
  end.

(** How an invocation ends in world [w].  A repository without an origin
    remote makes [git remote get-url origin] and [git remote set-url origin]
    exit with status 2; everything else is the environment's choice. *)
Definition outcome_of (cmd : GitCmd) (w : World) : Outcome :=
  match cmd with
  | RemoteGetUrl p | RemoteSetUrl p _ =>
      match remotes w !! p, git env (clock w) cmd with
      | None, Exited _ => Exited 2
      | _, o => o
      end
  | _ => git env (clock w) cmd
  end.

(** What an invocation that ended with [o] has changed. *)
Definition effect_fs (cmd : GitCmd) (o : Outcome) (w : World)
    : gmap string FileKind :=
  match cmd, o with
  | Clone url dst, Exited rc =>
      if rc =? 0
      then <[path_join dst ".git" := Directory]> (<[dst := Directory]> (fs w))
      else
        match left_behind env (clock w) with
        | NoLeftover => fs w
        | LeftDirectory => <[dst := Directory]> (fs w)
        | LeftGitDirectory | LeftRepository =>
            <[path_join dst ".git" := Directory]> (<[dst := Directory]> (fs w))
        end
  | _, _ => fs w
  end.

Definition effect_remotes (cmd : GitCmd) (o : Outcome) (w : World)
    : gmap string string :=
  match cmd with
  | Clone url dst =>
      match o with
      | Exited rc =>
          if rc =? 0 then <[dst := url]> (remotes w)
          else
            match left_behind env (clock w) with
            | LeftRepository => <[dst := url]> (remotes w)
            | _ => remotes w
            end
      | NotStarted => remotes w
      end
  | RemoteSetUrl p new => if succeeded o then <[p := new]> (remotes w) else remotes w
  | _ => remotes w
  end.

(** What the command prints on its standard output when it succeeds. *)
Definition stdout_of (cmd : GitCmd) (w : World) : string :=
  match cmd with
  | RemoteGetUrl p =>
      match remotes w !! p with
      | Some url => url +:+ LF
      | None => EmptyString
      end
  | _ => EmptyString
  end.

Definition spawn (cmd : GitCmd) (w : World) : Outcome * World :=
  let o := outcome_of cmd w in
  (o, {| clock := S (clock w);
         fs := effect_fs cmd o w;
         remotes := effect_remotes cmd o w;
         stdin := stdin w;
         trace := trace w ++ [Exec cmd o] |}).

(** [subprocess.run(cmd)] without [check]: the return code. *)
Definition subprocess_run (cmd : GitCmd) : M Z :=
  fun w =>
    match spawn cmd w with
    | (Exited rc, w') => (Ok rc, w')
    | (NotStarted, w') => (Raise (OSError "git"), w')
    end.

(** [subprocess.check_output(cmd, text=True)] *)
Definition check_output (cmd : GitCmd) : M string :=
  fun w =>
    match spawn cmd w with
    | (Exited rc, w') =>
        if rc =? 0 then (Ok (stdout_of cmd w), w')
        else (Raise (CalledProcessError cmd rc), w')
    | (NotStarted, w') => (Raise (OSError "git"), w')
    end.

(** [run(cmd, silent)]: [subprocess.run(cmd, check=True)]. *)
Definition run (cmd : GitCmd) (silent : bool) : M unit :=
  (if silent then ret tt else console_print (Launch cmd)) ;;
  rc <- subprocess_run cmd ;;
  if rc =? 0 then ret tt else raise (CalledProcessError cmd rc).

Definition safe_run (cmd : GitCmd) (silent : bool) : M bool :=
  try_except
    (run cmd silent ;; ret true)
    is_CalledProcessError
    (fun _ => ret false).

(** [user.get_repos()] read to the end by [list(...)]. *)
Definition user_get_repos : M (list Repository) :=
  fun w =>
    let w' := {| clock := S (clock w); fs := fs w; remotes := remotes w;
                 stdin := stdin w; trace := trace w |} in
    match get_repos env (clock w) with
    | inr rs => (Ok rs, w')
    | inl e => (Raise e, w')
    end.

(** [xs[:limit]] *)
Definition slice_to {A} (limit : Z) (xs : list A) : list A :=
  if limit <? 0
  then firstn (Z.to_nat (Z.of_nat (length xs) + limit)) xs
  else firstn (Z.to_nat limit) xs.

Definition list_repos_limit : Z := 1000.

Definition list_repos (limit : Z) : M (list Repository) :=
  try_except
    (rs <- user_get_repos ;; ret (slice_to limit rs))
    is_Exception
    (fun e => console_print (FetchFailed e) ;; ret []).

(** The test on a URL that the source writes four times:
    [url.startswith("https://") and "@" not in url]. *)
Definition plain_https (url : string) : bool :=
  PyStr.startswith "https://" url && negb (PyStr.contains "@" url).

Definition fix_remote_with_token (repo_path : string) : M unit :=
  try_except
    (out <- check_output (RemoteGetUrl repo_path) ;;
     let origin := PyStr.strip out in
     if plain_https origin then
       let new := PyStr.replace "https://" ("https://" +:+ TOKEN env +:+ "@") origin in
       _ <- safe_run (RemoteSetUrl repo_path new) true ;;
       log_action (LogUpdatedRemote repo_path)
     else ret tt)
    is_Exception
    (fun _ => ret tt).

(** The URL handed to [git clone] (lines 457-459 and 544-546). *)
Definition clone_url_with_token (url : string) : string :=
  if plain_https url
  then PyStr.replace "https://" ("https://" +:+ TOKEN env +:+ "@") url
  else url.

(** The body of the loop of [clone_to_workspace] (lines 451-467). *)
Definition clone_one (r : Repository) : M unit :=
  let dst := path_join WORKSPACE (name r) in
  present <- os_path_exists dst ;;
  if present then
    console_print (AlreadyExists (name r)) ;;
    fix_remote_with_token dst
  else
    let url := clone_url_with_token (clone_url r) in
    console_print (Cloning (full_name r)) ;;
    try_except
      (run (Clone url dst) true ;;
       fix_remote_with_token dst ;;
       console_print (Cloned (name r)) ;;
       log_action (LogCloned (full_name r) dst))
      is_Exception
      (fun e => console_print (CloneFailedFor (name r) e)).

Definition clone_all (to_clone : list Repository) : M unit :=
  for_each to_clone clone_one.

(** [choice in (a, b)] *)
Definition one_of (choice : string) (options : list string) : bool :=
  existsb (String.eqb choice) options.

(** Stage everything and commit: the three lines that the push and sync
    branches share (505-507, 579-581, 593-595).  The value is the test
    [c.returncode == 0] that follows them. *)
Definition commit_if_dirty (path message : string) : M bool :=
  run (AddAll path) true ;;
  c <- subprocess_run (Commit path message) ;;
  ret (c =? 0).

(** The body of the loop of [batch_workspace_manager] (lines 496-515). *)
Definition batch_one (choice commit_msg repo_name : string) : M unit :=
  let path := path_join WORKSPACE repo_name in
  console_print (RepoHeading repo_name) ;;
  fix_remote_with_token path ;;
  try_except
    ((if one_of choice ["1"; "3"] then
        run (Pull path) true ;;
        log_action (LogPulled repo_name)
      else ret tt) ;;
     (if one_of choice ["2"; "3"] then
        committed <- commit_if_dirty path commit_msg ;;
        if committed then
          run (Push path) true ;;
          console_print Pushed ;;
          log_action (LogPushed repo_name)
        else console_print NothingToCommit
      else ret tt))
    is_Exception
    (fun e =>
       console_print (FailedFor repo_name e) ;;
       log_action (LogError repo_name e)).

Definition batch_all (choice commit_msg : string) (dirs : list string) : M unit :=
  for_each dirs (batch_one choice commit_msg).

(** *** [clone_to_workspace] *)

(** [[int(x.strip()) for x in pieces if x.strip()]] *)
Fixpoint numbers_of (pieces : list string) : M (list Z) :=
  match pieces with
  | [] => ret []
  | x :: rest =>
      let x := PyStr.strip x in
      if String.eqb x "" then numbers_of rest
      else
        match PyStr.int x with
        | None => raise (ValueError x)
        | Some n => ns <- numbers_of rest ;; ret (n :: ns)
        end
  end.

(** [[repos[n - 1] for n in nums if 1 <= n <= len(repos)]] *)
Definition pick (repos : list Repository) (nums : list Z) : list Repository :=
  omap (fun n =>
          if (1 <=? n) && (n <=? Z.of_nat (length repos))
          then PyStr.index repos (n - 1) else None)
       nums.

Definition clone_to_workspace : M unit :=
  os_makedirs WORKSPACE ;;
  repos <- list_repos list_repos_limit ;;
  match repos with
  | [] => console_print (Text "No repos found")
  | _ :: _ =>
      console_print (Text "Clone to Workspace") ;;
      console_print (Text "1) Clone ALL") ;;
      console_print (Text "2) Choose specific (by number)") ;;
      console_print (Text "3) Cancel") ;;
      ch <- prompt_ask "Choice" (Some "3") ;;
      let ch := PyStr.strip ch in
      if String.eqb ch "1" then clone_all repos
      else if String.eqb ch "2" then
        console_print (Rows "Repositories" repos) ;;
        raw <- prompt_ask "Enter numbers (comma-separated)" None ;;
        let raw := PyStr.strip raw in
        chosen <- try_except
                    (nums <- numbers_of (PyStr.split "," raw) ;;
                     ret (Some (pick repos nums)))
                    is_Exception
                    (fun _ => console_print (Text "Invalid input") ;; ret None) ;;
        match chosen with
        | Some to_clone => clone_all to_clone
        | None => ret tt
        end
      else ret tt
  end.

(** *** [batch_workspace_manager] *)

Definition batch_workspace_manager : M unit :=
  present <- os_path_isdir WORKSPACE ;;
  if negb present then console_print (Text "Workspace missing: /home/gost/7heBlackLand")
  else
    entries <- os_listdir WORKSPACE ;;
    w <- get_world ;;
    let dirs :=
      PyStr.sorted
        (List.filter (fun d => path_isdir (path_join WORKSPACE d) w) entries) in
    let dirs :=
      List.filter
        (fun d => path_isdir (path_join (path_join WORKSPACE d) ".git") w)
        dirs in
    match dirs with
    | [] => console_print (Text "No git repos in workspace")
    | _ :: _ =>
        console_print (Text "Batch Workspace Manager") ;;
        console_print (Text "1) Pull all") ;;
        console_print (Text "2) Push all") ;;
        console_print (Text "3) Sync all (pull then push)") ;;
        console_print (Text "4) Back") ;;
        choice <- prompt_ask "Enter (1-4)" (Some "4") ;;
        let choice := PyStr.strip choice in
        if String.eqb choice "4" then ret tt
        else
          commit_msg <-
            (if one_of choice ["2"; "3"]
             then prompt_ask "Commit message" (Some DEFAULT_COMMIT_MSG)
             else ret DEFAULT_COMMIT_MSG) ;;
          batch_all choice commit_msg dirs ;;
          console_print (Text "Batch operations completed.")
    end.

(** *** [per_repo_manager] *)

(** Lines 529-554: offer to clone into [path].  The value tells whether
    [per_repo_manager] goes on to its menu. *)
Definition per_repo_clone (path : string) : M bool :=
  console_print (NotARepo path) ;;
  yes <- confirm_ask "Clone a repo here from your account?" false ;;
  if negb yes then ret false
  else
    repos <- list_repos list_repos_limit ;;
    console_print (Rows "Select repo to clone here" repos) ;;
    sel <- prompt_ask "Select repo number" None ;;
    let sel := PyStr.strip sel in
    try_except
      (idx <- match PyStr.int sel with
              | Some n => ret (n - 1)
              | None => raise (ValueError sel)
              end ;;
       repo <- match PyStr.index repos idx with
               | Some r => ret r
               | None => raise IndexError
               end ;;
       let url := clone_url_with_token (clone_url repo) in
       os_makedirs (dirname path) ;;
       run (Clone url path) false ;;
       fix_remote_with_token path ;;
       console_print (ClonedTo (name repo) path) ;;
       log_action (LogCloned (full_name repo) path) ;;
       ret true)
      is_Exception
      (fun e => console_print (CloneFailed e) ;; ret false).

(** Menu entry 1 (lines 570-575). *)
Definition per_repo_pull (path : string) : M unit :=
  try_except
    (run (Pull path) false ;;
     console_print Pulled)
    is_Exception
    (fun e => console_print (PullFailed e)).

(** Menu entry 2 (lines 576-588). *)
Definition per_repo_push (path : string) : M unit :=
  msg <- prompt_ask "Commit message" (Some DEFAULT_COMMIT_MSG) ;;
  try_except
    (committed <- commit_if_dirty path msg ;;
     if committed then
       run (Push path) false ;;
       console_print Pushed ;;
       log_action (LogPushedLocal path)
     else console_print NothingToCommit)
    is_Exception
    (fun e => console_print (PushFailed e)).

(** Menu entry 3 (lines 589-602). *)
Definition per_repo_sync (path : string) : M unit :=
  msg <- prompt_ask "Commit message" (Some DEFAULT_COMMIT_MSG) ;;
  try_except
    (run (Pull path) true ;;
     committed <- commit_if_dirty path msg ;;
     if committed then
       run (Push path) true ;;
       console_print Synced ;;
       log_action (LogSyncedLocal path)
     else console_print NothingToSync)
    is_Exception
    (fun e => console_print (SyncFailed e)).

(** One turn of the [while True] menu; the value is [false] on [break]. *)
Definition per_repo_turn (path : string) : M bool :=
  console_print (Text "Local Repo Manager") ;;
  console_print (Text "1) Pull") ;;
  console_print (Text "2) Push") ;;
  console_print (Text "3) Sync (pull + push)") ;;
  console_print (Text "4) Back") ;;
  ch <- prompt_ask "Choose (1-4)" (Some "4") ;;
  let ch := PyStr.strip ch in
  if String.eqb ch "1" then per_repo_pull path ;; ret true
  else if String.eqb ch "2" then per_repo_push path ;; ret true
  else if String.eqb ch "3" then per_repo_sync path ;; ret true
  else ret false.

(** The menu loop.  [None] means that [fuel] turns were not enough. *)
Fixpoint per_repo_menu (fuel : nat) (path : string) (w : World)
    : option (Result unit * World) :=
  match fuel with
  | O => None
  | S fuel' =>
      match per_repo_turn path w with
      | (Ok true, w') => per_repo_menu fuel' path w'
      | (Ok false, w') => Some (Ok tt, w')
      | (Raise e, w') => Some (Raise e, w')
      end
  end.

(** Lines 524-561: everything before the menu.  The value is the path when
    the menu is to be shown. *)
Definition per_repo_setup : M (option string) :=
  path <- prompt_ask "Local repository path (default)" (Some WORKSPACE) ;;
  let path := abspath env (PyStr.strip path) in
  w <- get_world ;;
  go_on <-
    (if negb (path_isdir path w) || negb (path_isdir (path_join path ".git") w)
     then per_repo_clone path
     else ret true) ;;
  if negb go_on then ret None
  else
    try_except
      (run (ConfigSet path "user.name" DEFAULT_GIT_NAME) true ;;
       run (ConfigSet path "user.email" DEFAULT_GIT_EMAIL) true)
      is_Exception
      (fun _ => ret tt) ;;
    ret (Some path).

Definition per_repo_manager (fuel : nat) (w : World)
    : option (Result unit * World) :=
  match per_repo_setup w with
  | (Ok (Some path), w') => per_repo_menu fuel path w'
  | (Ok None, w') => Some (Ok tt, w')
  | (Raise e, w') => Some (Raise e, w')
  end.

End Manager.

(** ** Strings *)

(** A string with no white space at its start. *)
Definition starts_clean (s : string) : Prop :=
  match s with
  | EmptyString => True
  | String a s1 =>
      PyStr.isspace a = false
      /\ match s1 with
         | EmptyString => True
         | String b s2 =>
             PyStr.isspace2 a b = false
             /\ match s2 with
                | EmptyString => True
                | String c _ => PyStr.isspace3 a b c = false
                end
         end
  end.

(** ** Traces *)

(** The events that were added on the way from [w] to [w']. *)
Definition new_events (w w' : World) : list Event :=
  drop (length (trace w)) (trace w').

(** The events that [fix_remote_with_token path] can add. *)
Definition is_fix_event (path : string) (e : Event) : bool :=
  match e with
  | Exec (RemoteGetUrl p) _ => String.eqb p path
  | Exec (RemoteSetUrl p _) _ => String.eqb p path
  | Log (LogUpdatedRemote p) => String.eqb p path
  | _ => false
  end.

Definition is_print (e : Event) : bool :=
  match e with Print _ => true | _ => false end.

Definition is_clone (e : Event) : bool :=
  match e with Exec (Clone _ _) _ => true | _ => false end.

Definition is_clone_of (dst : string) (e : Event) : bool :=
  match e with Exec (Clone _ d) _ => String.eqb d dst | _ => false end.

(** Staging, committing and pushing: the steps of the push policy. *)
Definition is_push_step (e : Event) : bool :=
  match e with
  | Exec (AddAll _) _ | Exec (Commit _ _) _ | Exec (Push _) _ => true
  | _ => false
  end.

Definition is_push_of (path : string) (e : Event) : bool :=
  match e with Exec (Push p) _ => String.eqb p path | _ => false end.

Definition is_commit (e : Event) : bool :=
  match e with Exec (Commit _ _) _ => true | _ => false end.

(** [git commit] for [path] that exited with status zero ([zero = true]) or
    with another status ([zero = false]). *)
Definition is_commit_exit (zero : bool) (path : string) (e : Event) : bool :=
  match e with
  | Exec (Commit p _) (Exited rc) => String.eqb p path && Bool.eqb (rc =? 0) zero
  | _ => false
  end.

Definition is_nothing_to_commit (e : Event) : bool :=
  match e with Print NothingToCommit => true | _ => false end.

(** The repositories whose heading was printed by the batch manager. *)
Definition headings (evs : list Event) : list string :=
  flat_map (fun e => match e with Print (RepoHeading n) => [n] | _ => [] end) evs.

(** What the batch manager reports for a repository: "Pushed", "Nothing to
    commit" or "Failed for ..." on the console; under the pull policy a
    success is only logged, as "Pulled ...". *)
Definition is_batch_report (choice : string) (e : Event) : bool :=
  match e with
  | Print Pushed | Print NothingToCommit | Print (FailedFor _ _) => true
  | Log (LogPulled _) => String.eqb choice "1"
  | _ => false
  end.

(** The repositories for which [clone_to_workspace] printed its result:
    "Already exists, skipping", "Cloned" or "Failed to clone". *)
Definition clone_reports (evs : list Event) : list string :=
  flat_map (fun e =>
              match e with
              | Print (AlreadyExists n) | Print (Cloned n)
              | Print (CloneFailedFor n _) => [n]
              | _ => []
              end) evs.

Definition is_failed_for (repo_name : string) (e : Event) : bool :=
  match e with Print (FailedFor n _) => String.eqb n repo_name | _ => false end.

Definition is_sync_failed (e : Event) : bool :=
  match e with Print (SyncFailed _) => true | _ => false end.

(** The exception with which [run cmd] ends when the command did not
    succeed: it exited with a status other than zero, or it could not be
    started. *)
Definition error_of (cmd : GitCmd) (o : Outcome) : Exn :=
  match o with
  | Exited rc => CalledProcessError cmd rc
  | NotStarted => OSError "git"
  end.

(** What the batch manager prints and logs for a repository whose turn
    ended with the exception [e]. *)
Definition failed_for (repo_name : string) (e : Exn) : list Event :=
  [Print (FailedFor repo_name e); Log (LogError repo_name e)].

(** ** The plain form, as the specification words it

    The specification calls plain an "unauthenticated HTTPS form (no user@
    segment)".  The user segment of a URL is the part of its authority
    before an "@", and the authority is what stands between "https://" and
    the next "/". *)




(** What [fix_remote_with_token] makes of the origin URL [u] when [git]
    works: [u] is read back with a line feed and stripped; in the plain
    form it is rewritten, otherwise [u] stays. *)
Definition fixed_origin (env : Env) (u : string) : string :=
  let origin := PyStr.strip (u +:+ LF) in
  if plain_https origin
  then PyStr.replace "https://" ("https://" +:+ TOKEN env +:+ "@") origin
  else u.

(** ** Invariants of the world *)

(** A computation respects [R] when every run takes a world to one that is
    [R]-related to it, whether it returns or raises. *)
Definition respects (R : World -> World -> Prop) {A} (m : M A) : Prop :=
  forall w, R w (snd (m w)).

(** Every path of [w] is still a path of [w']. *)
Definition keeps_paths (w w' : World) : Prop :=
  forall p, path_exists p w = true -> path_exists p w' = true.

(** The input of [w'] is not longer than that of [w]. *)
Definition reads_forward (w w' : World) : Prop :=
  (length (stdin w') <= length (stdin w))%nat.

(** A computation that deletes nothing. *)
Definition harmless {A} (m : M A) : Prop := respects keeps_paths m.

(** ** Scenarios

    Two repositories of the account, a local copy of the first one, and
    environments in which one [git] command fails. *)

Definition alpha : Repository :=
  {| name := "alpha";
     full_name := "7heBlackLand/alpha";
     clone_url := "https://github.com/7heBlackLand/alpha.git";
     private := false |}.

Definition beta : Repository :=
  {| name := "beta";
     full_name := "7heBlackLand/beta";
     clone_url := "https://github.com/7heBlackLand/beta.git";
     private := true |}.

Definition alpha_path : string := "/home/gost/7heBlackLand/alpha".

Definition ssh_url : string := "git@github.com:7heBlackLand/alpha.git".


(** NO-BREAK SPACE (U+00A0) and IDEOGRAPHIC SPACE (U+3000), in UTF-8. *)
Definition nbsp : string :=
  String (ascii_of_nat 194) (String (ascii_of_nat 160) EmptyString).

Definition ideographic_space : string :=
  String (ascii_of_nat 227)
    (String (ascii_of_nat 128) (String (ascii_of_nat 128) EmptyString)).

Definition git_works : nat -> GitCmd -> Outcome := fun _ _ => Exited 0.

(** [git pull] stops on a conflict. *)
Definition git_pull_fails : nat -> GitCmd -> Outcome :=
  fun _ cmd => match cmd with Pull _ => Exited 1 | _ => Exited 0 end.

(** [git commit] dies with "fatal: unable to auto-detect email address". *)
Definition git_commit_fatal : nat -> GitCmd -> Outcome :=
  fun _ cmd => match cmd with Commit _ _ => Exited 128 | _ => Exited 0 end.

(** [git clone] fetches the repository but cannot check it out: it exits
    with status 128. *)
Definition git_clone_fails : nat -> GitCmd -> Outcome :=
  fun _ cmd => match cmd with Clone _ _ => Exited 128 | _ => Exited 0 end.

(** [git add] cannot read the index: it exits with status 128. *)
Definition git_add_fails : nat -> GitCmd -> Outcome :=
  fun _ cmd => match cmd with AddAll _ => Exited 128 | _ => Exited 0 end.

(** [git remote set-url] cannot write the configuration. *)
Definition git_set_url_fails : nat -> GitCmd -> Outcome :=
  fun _ cmd => match cmd with RemoteSetUrl _ _ => Exited 128 | _ => Exited 0 end.

(** With [debris], a clone that fails leaves the repository it could not
    check out; without, it leaves nothing. *)
Definition env_of (g : nat -> GitCmd -> Outcome) (debris : bool) : Env :=
  {| TOKEN := "ghp_token";
     git := g;
     left_behind := fun _ => if debris then LeftRepository else NoLeftover;
     get_repos := fun _ => inr [alpha; beta];
     abspath := fun p => p |}.

(** The workspace exists and is empty. *)
Definition empty_workspace : World :=
  {| clock := 0;
     fs := {[ WORKSPACE := Directory ]};
     remotes := ∅;
     stdin := [];
     trace := [] |}.

(** [alpha] has been cloned; [origin] is its origin URL when it has one,
    and [input] is what will be typed. *)
Definition with_alpha (origin : option string) (input : list string) : World :=
  {| clock := 0;
     fs := {[ WORKSPACE := Directory;
              alpha_path := Directory;
              path_join alpha_path ".git" := Directory ]};
     remotes := match origin with
                | Some url => {[ alpha_path := url ]}
                | None => ∅
                end;
     stdin := input;
     trace := [] |}.

(** ** More about the trace *)

Definition is_exec (e : Event) : bool :=
  match e with Exec _ _ => true | _ => false end.

Definition is_pull (e : Event) : bool :=
  match e with Exec (Pull _) _ => true | _ => false end.

(** ** What can escape a computation *)





(** ** What a computation adds to the trace *)

(** Every event that [m] adds to the trace satisfies [P], whether [m]
    returns or raises. *)
Definition emits_only (P : Event -> bool) {A} (m : M A) : Prop :=
  forall w, exists evs,
    trace (snd (m w)) = trace w ++ evs /\ forallb P evs = true.

(** The directory that a command works on. *)
Definition git_dir (cmd : GitCmd) : string :=
  match cmd with
  | Clone _ dst => dst
  | RemoteGetUrl p | RemoteSetUrl p _ | Pull p | AddAll p | Commit p _
  | Push p | ConfigSet p _ _ => p
  end.

(** Not a [git] command, or one that works on [path]. *)
Definition runs_in (path : string) (e : Event) : bool :=
  match e with
  | Exec cmd _ => String.eqb (git_dir cmd) path
  | _ => true
  end.

(** Not a [git commit], or one with the message [msg]. *)
Definition commits_with (msg : string) (e : Event) : bool :=
  match e with
  | Exec (Commit _ m) _ => String.eqb m msg
  | _ => true
  end.

Definition no_pull (e : Event) : bool := negb (is_pull e).
Definition no_push_step (e : Event) : bool := negb (is_push_step e).
Definition no_clone (e : Event) : bool := negb (is_clone e).
Definition no_exec (e : Event) : bool := negb (is_exec e).

(** Not a [git] command, or one of those that cloning runs: [git clone] and
    reading or setting the origin URL. *)
Definition clone_step (e : Event) : bool :=
  match e with
  | Exec (Clone _ _) _ | Exec (RemoteGetUrl _) _ | Exec (RemoteSetUrl _ _) _ => true
  | Exec _ _ => false
  | _ => true
  end.


(** ** Names and their order *)

Definition ascending (s t : string) : Prop := PyStr.leb s t = true.

(** A name inside a directory: not empty and without a slash. *)
Definition plain_name (d : string) : Prop :=
  d <> "" /\ PyStr.contains "/" d = false.

(** [d] is a directory of the workspace that holds a [.git] directory. *)
Definition is_local_repository (d : string) (w : World) : Prop :=
  plain_name d
  /\ path_isdir (WORKSPACE +:+ "/" +:+ d) w = true
  /\ path_isdir (WORKSPACE +:+ "/" +:+ d +:+ "/.git") w = true.
(** * Properties *)

(** ** Strings *)

Module PyStrFacts.
Import PyStr.

Example startswith_https :
  startswith "https://" "https://github.com/o/r.git" = true.
Proof. reflexivity. Qed.

Example startswith_ssh :
  startswith "https://" "git@github.com:o/r.git" = false.
Proof. reflexivity. Qed.

Example replace_all_occurrences :
  replace "ab" "X" "abcabab." = "XcXX.".
Proof. reflexivity. Qed.

Example replace_no_overlap : replace "aa" "b" "aaaaa" = "bba".
Proof. reflexivity. Qed.

Example replace_empty_needle : replace "" "-" "ab" = "-a-b-".
Proof. reflexivity. Qed.

Example strip_newline : strip "  https://h/x y
" = "https://h/x y".
Proof. reflexivity. Qed.

Example strip_unicode_white_space :
  strip (nbsp +:+ " https://h/x" +:+ nbsp +:+ "y " +:+ ideographic_space)
  = "https://h/x" +:+ nbsp +:+ "y".
Proof. reflexivity. Qed.

Example int_literals :
  (int " -1_0 ", int "1__0", int "", int "+7", int "12a")
  = (Some (-10), None, None, Some 7, None).
Proof. reflexivity. Qed.

Example split_commas : split "," "a,,b," = ["a"; ""; "b"; ""].
Proof. reflexivity. Qed.

Example sorted_names : sorted ["b"; "a"; "B"; "ab"] = ["B"; "a"; "ab"; "b"].
Proof. reflexivity. Qed.

Example index_from_end : index [1; 2; 3] (-1) = Some 3 /\ index [1; 2; 3] 3 = None.
Proof. split; reflexivity. Qed.

Lemma startswith_app p s : startswith p (p +:+ s) = true.
Proof.
  induction p as [|a p IH]; simpl; [reflexivity|].
  now rewrite Ascii.eqb_refl, IH.
Qed.

Lemma startswith_inv p s :
  startswith p s = true -> exists rest, s = p +:+ rest.
Proof.
  revert s; induction p as [|a p IH]; intros s H; simpl in *.
  - now exists s.
  - destruct s as [|b s]; [discriminate|].
    apply andb_true_iff in H as [Hab Hps].
    apply Ascii.eqb_eq in Hab; subst b.
    destruct (IH _ Hps) as [rest ->]. now exists rest.
Qed.

Lemma startswith_weaken p a b :
  startswith p a = true -> startswith p (a +:+ b) = true.
Proof.
  revert a; induction p as [|c p IH]; intros a H; simpl in *; [reflexivity|].
  destruct a as [|d a]; [discriminate|]; simpl.
  apply andb_true_iff in H as [H1 H2].
  now rewrite H1, (IH _ H2).
Qed.

Lemma contains_app_l sub a b :
  contains sub a = true -> contains sub (a +:+ b) = true.
Proof.
  induction a as [|c a IH]; simpl; intros H.
  - rewrite orb_false_r in H.
    destruct sub; [|discriminate].
    destruct b; reflexivity.
  - apply orb_true_iff in H as [H|H].
    + change (String c (a +:+ b)) with (String c a +:+ b).
      now rewrite (startswith_weaken _ _ _ H).
    + rewrite (IH H). apply orb_true_r.
Qed.

Lemma contains_app_r sub a b :
  contains sub b = true -> contains sub (a +:+ b) = true.
Proof.
  intros H; induction a as [|c a IH]; simpl; [exact H|].
  rewrite IH. apply orb_true_r.
Qed.

Lemma contains_startswith sub s :
  startswith sub s = true -> contains sub s = true.
Proof. intros H. destruct s; simpl in *; now rewrite H. Qed.

Lemma append_cons c (a b : string) : String c a +:+ b = String c (a +:+ b).
Proof. reflexivity. Qed.

Lemma append_assoc (a b c : string) : (a +:+ b) +:+ c = a +:+ (b +:+ c).
Proof.
  induction a as [|x a IH]; [reflexivity|].
  now rewrite !append_cons, IH.
Qed.

(** The scan passes over the rest of a matched occurrence. *)
Lemma replace_from_skip t old new rest :
  replace_from (String.length t) old new (t +:+ rest)
  = replace_from 0 old new rest.
Proof.
  induction t as [|c t IH]; simpl.
  - destruct rest; reflexivity.
  - exact IH.
Qed.

(** An occurrence at the head is replaced, and the scan goes on after it. *)
Lemma replace_head old new rest :
  old <> EmptyString ->
  replace old new (old +:+ rest) = new +:+ replace old new rest.
Proof.
  destruct old as [|c old]; [congruence|]; intros _.
  unfold replace.
  change (String c old +:+ rest) with (String c (old +:+ rest)).
  cbn [replace_from].
  change (String c (old +:+ rest)) with (String c old +:+ rest).
  rewrite startswith_app.
  cbn [String.length Nat.pred].
  now rewrite replace_from_skip.
Qed.

(** A character that does not start an occurrence is copied. *)
Lemma replace_copy old new c s :
  old <> EmptyString ->
  startswith old (String c s) = false ->
  replace old new (String c s) = String c (replace old new s).
Proof.
  destruct old as [|d old]; [congruence|]; intros _ H.
  unfold replace. cbn [replace_from]. now rewrite H.
Qed.

(** White-space characters of more than one byte are made of bytes from
    128 on. *)
Ltac bools_to_nat :=
  repeat match goal with
         | H : (_ || _) = true |- _ => apply orb_true_iff in H as [H|H]
         | H : (_ && _) = true |- _ => apply andb_true_iff in H as [? ?]
         | H : (_ =? _)%nat = true |- _ => apply Nat.eqb_eq in H
         | H : (_ <=? _)%nat = true |- _ => apply Nat.leb_le in H
         end.

Lemma isspace2_bytes a b :
  isspace2 a b = true ->
  (128 <= nat_of_ascii a)%nat /\ (128 <= nat_of_ascii b)%nat.
Proof. unfold isspace2. intros H. bools_to_nat; lia. Qed.

Lemma isspace3_bytes a b c :
  isspace3 a b c = true ->
  (128 <= nat_of_ascii a)%nat /\ (128 <= nat_of_ascii b)%nat
  /\ (128 <= nat_of_ascii c)%nat.
Proof. unfold isspace3. cbv zeta. intros H. bools_to_nat; lia. Qed.

Lemma isspace_byte a : isspace a = true -> (nat_of_ascii a < 128)%nat.
Proof. unfold isspace. cbv zeta. intros H. bools_to_nat; lia. Qed.

(** A byte of the ASCII range is no part of such a character. *)
Lemma isspace2_ascii a b :
  (nat_of_ascii a < 128)%nat \/ (nat_of_ascii b < 128)%nat ->
  isspace2 a b = false.
Proof.
  intros H. destruct (isspace2 a b) eqn:E; [|reflexivity].
  apply isspace2_bytes in E. lia.
Qed.

Lemma isspace3_ascii a b c :
  (nat_of_ascii a < 128)%nat \/ (nat_of_ascii b < 128)%nat
  \/ (nat_of_ascii c < 128)%nat ->
  isspace3 a b c = false.
Proof.
  intros H. destruct (isspace3 a b c) eqn:E; [|reflexivity].
  apply isspace3_bytes in E. lia.
Qed.

Lemma isspace_at : isspace "@" = false.
Proof. reflexivity. Qed.

Lemma at_is_ascii c : Ascii.eqb "@" c = true -> (nat_of_ascii c < 128)%nat.
Proof.
  intros H. apply Ascii.eqb_eq in H. subst c.
  apply Nat.ltb_lt. reflexivity.
Qed.

Lemma contains_at_cons c s :
  contains "@" (String c s) = Ascii.eqb "@" c || contains "@" s.
Proof. simpl. now rewrite andb_true_r. Qed.

Lemma contains_at_nil : contains "@" "" = false.
Proof. reflexivity. Qed.

Lemma not_at c : (128 <= nat_of_ascii c)%nat -> Ascii.eqb "@" c = false.
Proof.
  intros H. destruct (Ascii.eqb "@" c) eqn:E; [|reflexivity].
  apply at_is_ascii in E. lia.
Qed.

Functional Scheme lstrip_ind := Induction for lstrip Sort Prop.

Lemma contains_at_lstrip s :
  contains "@" s = true -> contains "@" (lstrip s) = true.
Proof.
  functional induction (lstrip s); try (intros H; exact H).
  - rewrite contains_at_cons. intros H.
    apply orb_true_iff in H as [H|H]; [|auto].
    apply Ascii.eqb_eq in H; subst a. discriminate.
  - rewrite !contains_at_cons.
    match goal with H : isspace2 _ _ = true |- _ =>
      apply isspace2_bytes in H as [Ha Hb] end.
    rewrite (not_at _ Ha), (not_at _ Hb). exact IHs0.
  - rewrite !contains_at_cons.
    match goal with H : isspace3 _ _ _ = true |- _ =>
      apply isspace3_bytes in H as (Ha & Hb & Hc) end.
    rewrite (not_at _ Ha), (not_at _ Hb), (not_at _ Hc). exact IHs0.
Qed.

Lemma contains_at_rstrip s :
  contains "@" s = true -> contains "@" (rstrip s) = true.
Proof.
  induction s as [|a s IH]; [discriminate|].
  rewrite contains_at_cons. intros H.
  cbn [rstrip].
  destruct (Ascii.eqb "@" a) eqn:Ha.
  - pose proof (at_is_ascii _ Ha) as Hlt.
    assert (Hs : isspace a = false)
      by (apply Ascii.eqb_eq in Ha; now subst a).
    destruct (rstrip s) as [|b [|c [|d t]]].
    + rewrite Hs, contains_at_cons, Ha. reflexivity.
    + rewrite isspace2_ascii by auto. rewrite contains_at_cons, Ha. reflexivity.
    + rewrite isspace3_ascii by auto. rewrite contains_at_cons, Ha. reflexivity.
    + rewrite contains_at_cons, Ha. reflexivity.
  - cbn [orb] in H. specialize (IH H).
    destruct (rstrip s) as [|b [|c [|d t]]]; [discriminate| | |].
    + rewrite contains_at_cons, contains_at_nil, orb_false_r in IH.
      rewrite isspace2_ascii by (right; now apply at_is_ascii).
      rewrite !contains_at_cons, IH. apply orb_true_r.
    + rewrite !contains_at_cons, contains_at_nil, orb_false_r in IH.
      rewrite isspace3_ascii.
      * rewrite !contains_at_cons.
        apply orb_true_iff in IH as [->| ->];
          rewrite ?orb_true_r, ?orb_true_l; reflexivity.
      * apply orb_true_iff in IH as [E|E]; apply at_is_ascii in E; auto.
    + rewrite contains_at_cons, IH. apply orb_true_r.
Qed.

Lemma contains_at_strip s :
  contains "@" s = true -> contains "@" (strip s) = true.
Proof. intros H. apply contains_at_rstrip, contains_at_lstrip, H. Qed.

(** A line feed at the end is stripped like any white space. *)
Lemma rstrip_line_feed s : rstrip (s +:+ String "010" "") = rstrip s.
Proof.
  induction s as [|c s IH]; [reflexivity|].
  rewrite append_cons. cbn [rstrip]. now rewrite IH.
Qed.

Lemma lstrip_line_feed s :
  lstrip (s +:+ String "010" "")
  = match lstrip s with
    | EmptyString => EmptyString
    | t => t +:+ String "010" ""
    end.
Proof.
  functional induction (lstrip s).
  - reflexivity.
  - rewrite append_cons. cbn [lstrip].
    match goal with H : isspace _ = true |- _ => rewrite H end. exact IHs0.
  - change (String a "" +:+ String "010" "") with (String a (String "010" "")).
    cbn [lstrip].
    match goal with H : isspace _ = false |- _ => rewrite H end.
    rewrite isspace2_ascii by (right; apply Nat.ltb_lt; reflexivity). reflexivity.
  - rewrite !append_cons. cbn [lstrip].
    match goal with H : isspace _ = false |- _ => rewrite H end.
    match goal with H : isspace2 _ _ = true |- _ => rewrite H end.
    exact IHs0.
  - change (String a (String b "") +:+ String "010" "")
      with (String a (String b (String "010" ""))).
    cbn [lstrip].
    match goal with H : isspace _ = false |- _ => rewrite H end.
    match goal with H : isspace2 _ _ = false |- _ => rewrite H end.
    rewrite isspace3_ascii by (right; right; apply Nat.ltb_lt; reflexivity). reflexivity.
  - rewrite !append_cons. cbn [lstrip].
    match goal with H : isspace _ = false |- _ => rewrite H end.
    match goal with H : isspace2 _ _ = false |- _ => rewrite H end.
    match goal with H : isspace3 _ _ _ = true |- _ => rewrite H end.
    exact IHs0.
  - rewrite !append_cons. cbn [lstrip].
    match goal with H : isspace _ = false |- _ => rewrite H end.
    match goal with H : isspace2 _ _ = false |- _ => rewrite H end.
    match goal with H : isspace3 _ _ _ = false |- _ => rewrite H end.
    reflexivity.
Qed.

Lemma strip_line_feed s : strip (s +:+ String "010" "") = strip s.
Proof.
  unfold strip. rewrite lstrip_line_feed.
  destruct (lstrip s) as [|c t] eqn:E; [reflexivity|].
  apply rstrip_line_feed.
Qed.

(** Stripping twice is stripping once. *)
Lemma lstrip_lstrip s : lstrip (lstrip s) = lstrip s.
Proof.
  functional induction (lstrip s); auto; cbn [lstrip];
    repeat match goal with
           | H : _ = false |- _ => rewrite H; clear H
           end;
    reflexivity.
Qed.

Lemma rstrip_rstrip s : rstrip (rstrip s) = rstrip s.
Proof.
  induction s as [|a s IH]; [reflexivity|].
  cbn [rstrip].
  destruct (rstrip s) as [|b [|c [|d t]]].
  - destruct (isspace a) eqn:E; [reflexivity|]. cbn [rstrip]. now rewrite E.
  - destruct (isspace2 a b) eqn:E; [reflexivity|].
    change (rstrip (String a (String b "")))
      with (match rstrip (String b "") with
            | EmptyString => if isspace a then EmptyString else String a EmptyString
            | String b0 EmptyString =>
                if isspace2 a b0 then EmptyString
                else String a (String b0 EmptyString)
            | String b0 (String c0 EmptyString) =>
                if isspace3 a b0 c0 then EmptyString
                else String a (String b0 (String c0 EmptyString))
            | t => String a t
            end).
    rewrite IH. now rewrite E.
  - destruct (isspace3 a b c) eqn:E; [reflexivity|].
    change (rstrip (String a (String b (String c ""))))
      with (match rstrip (String b (String c "")) with
            | EmptyString => if isspace a then EmptyString else String a EmptyString
            | String b0 EmptyString =>
                if isspace2 a b0 then EmptyString
                else String a (String b0 EmptyString)
            | String b0 (String c0 EmptyString) =>
                if isspace3 a b0 c0 then EmptyString
                else String a (String b0 (String c0 EmptyString))
            | t => String a t
            end).
    rewrite IH. now rewrite E.
  - change (rstrip (String a (String b (String c (String d t)))))
      with (match rstrip (String b (String c (String d t))) with
            | EmptyString => if isspace a then EmptyString else String a EmptyString
            | String b0 EmptyString =>
                if isspace2 a b0 then EmptyString
                else String a (String b0 EmptyString)
            | String b0 (String c0 EmptyString) =>
                if isspace3 a b0 c0 then EmptyString
                else String a (String b0 (String c0 EmptyString))
            | t => String a t
            end).
    now rewrite IH.
Qed.

Lemma lstrip_length s : (String.length (lstrip s) <= String.length s)%nat.
Proof.
  functional induction (lstrip s); cbn [String.length] in *; lia.
Qed.

Lemma lstrip_clean s : starts_clean (lstrip s).
Proof.
  functional induction (lstrip s); cbn [starts_clean]; auto.
Qed.

Lemma clean_lstrip s : starts_clean s -> lstrip s = s.
Proof.
  destruct s as [|a [|b [|c s]]]; cbn [starts_clean lstrip].
  - reflexivity.
  - now intros [-> _].
  - now intros (-> & -> & _).
  - now intros (-> & -> & ->).
Qed.

Lemma rstrip_prefix s : exists ws, s = rstrip s +:+ ws.
Proof.
  induction s as [|a s [ws IH]]; [now exists ""|].
  cbn [rstrip].
  destruct (rstrip s) as [|b [|c [|d t]]];
    try destruct (isspace a); try destruct (isspace2 a b);
    try destruct (isspace3 a b c);
    first [ now exists (String a s)
          | exists ws; rewrite append_cons; now rewrite <- IH ].
Qed.

Lemma clean_prefix t ws : starts_clean (t +:+ ws) -> starts_clean t.
Proof.
  destruct t as [|a [|b [|c t]]]; cbn [starts_clean]; auto;
    rewrite ?append_cons; cbn [starts_clean]; tauto.
Qed.

Lemma strip_strip s : strip (strip s) = strip s.
Proof.
  unfold strip.
  assert (H : lstrip (rstrip (lstrip s)) = rstrip (lstrip s)).
  { apply clean_lstrip.
    destruct (rstrip_prefix (lstrip s)) as [ws E].
    apply (clean_prefix _ ws). rewrite <- E. apply lstrip_clean. }
  rewrite H. apply rstrip_rstrip.
Qed.

Lemma int_strip s : int (strip s) = int s.
Proof. unfold int. now rewrite strip_strip. Qed.


End PyStrFacts.

(** ** Traces *)

Lemma new_events_app w w' evs :
  trace w' = trace w ++ evs -> new_events w w' = evs.
Proof. unfold new_events. intros ->. apply drop_app_length. Qed.

Lemma new_events_refl w : new_events w w = [].
Proof. apply new_events_app. now rewrite app_nil_r. Qed.

(** ** The credential fix-up *)

Import PyStrFacts.

Section Reconciliation.

Variable env : Env.

Local Abbreviation embed :=
  (PyStr.replace "https://" ("https://" +:+ TOKEN env +:+ "@")).

(** Closes a case of an exploration: the result has been computed, the
    events are read off the trace. *)
Ltac read_off :=
  eexists; eexists; split; [reflexivity|]; cbn [trace];
  rewrite <- ?app_assoc;
  split; [reflexivity|]; cbn; rewrite ?String.eqb_refl; cbn;
  repeat split; eauto.

(** Whatever the environment does, [fix_remote_with_token] returns normally;
    it starts with [git remote get-url], and only the origin of [path] can
    change. *)
Lemma fix_remote_summary path w :
  exists w' evs,
    fix_remote_with_token env path w = (Ok tt, w')
    /\ trace w' = trace w ++ evs
    /\ forallb (is_fix_event path) evs = true
    /\ fs w' = fs w
    /\ stdin w' = stdin w
    /\ (exists o rest, evs = Exec (RemoteGetUrl path) o :: rest)
    /\ (remotes w' = remotes w
        \/ exists u,
             remotes w !! path = Some u
             /\ plain_https (PyStr.strip (u +:+ LF)) = true
             /\ remotes w' = <[path := embed (PyStr.strip (u +:+ LF))]> (remotes w)).
Proof.
  unfold fix_remote_with_token, try_except, bind, check_output,
    spawn, outcome_of, stdout_of.
  destruct (remotes w !! path) as [u|] eqn:Hu;
    destruct (git env (clock w) (RemoteGetUrl path)) as [rc|] eqn:Hget; cbn;
    try (destruct (rc =? 0) eqn:Hrc; cbn);
    try solve [read_off].
  destruct (plain_https (PyStr.strip (u +:+ LF))) eqn:Hplain; cbn;
    [|read_off].
  unfold safe_run, try_except, bind, run, bind, ret, subprocess_run, spawn,
    outcome_of; cbn.
  rewrite Hu.
  destruct (git env (S (clock w)) _) as [rc2|] eqn:Hset; cbn;
    [destruct (rc2 =? 0) eqn:Hrc2; cbn|]; read_off.
Qed.

(** When [git remote get-url] and [git remote set-url] work for [path], the
    origin of [path] becomes the rewritten URL exactly when the URL read is
    in the plain form. *)
Lemma fix_remote_ok path u w :
  remotes w !! path = Some u ->
  (forall n, git env n (RemoteGetUrl path) = Exited 0) ->
  (forall n new, git env n (RemoteSetUrl path new) = Exited 0) ->
  exists w',
    fix_remote_with_token env path w = (Ok tt, w')
    /\ fs w' = fs w
    /\ remotes w' =
         (if plain_https (PyStr.strip (u +:+ LF))
          then <[path := embed (PyStr.strip (u +:+ LF))]> (remotes w)
          else remotes w).
Proof.
  intros Hu Hget Hset.
  unfold fix_remote_with_token, try_except, bind, check_output,
    spawn, outcome_of, stdout_of.
  rewrite Hu, Hget. cbn.
  destruct (plain_https (PyStr.strip (u +:+ LF))) eqn:Hplain; cbn.
  - unfold safe_run, try_except, bind, run, bind, ret,
      subprocess_run, spawn, outcome_of; cbn.
    rewrite Hu, Hset. cbn. eexists; repeat split.
  - eexists; repeat split.
Qed.

Lemma embed_startswith url :
  PyStr.startswith "https://" url = true ->
  PyStr.startswith ("https://" +:+ TOKEN env +:+ "@") (embed url) = true.
Proof.
  intros H. apply startswith_inv in H as [rest ->].
  rewrite replace_head by discriminate.
  apply startswith_app.
Qed.

Lemma embed_contains_at url :
  PyStr.startswith "https://" url = true ->
  PyStr.contains "@" (embed url) = true.
Proof.
  intros H. apply startswith_inv in H as [rest ->].
  rewrite replace_head by discriminate.
  apply contains_app_l, contains_app_r, contains_app_r.
  reflexivity.
Qed.

(** A rewritten URL is no longer in the plain form, also after it has been
    printed by [git] and stripped. *)
Lemma embed_not_plain url :
  plain_https url = true ->
  plain_https (PyStr.strip (embed url +:+ LF)) = false.
Proof.
  unfold plain_https. intros H. apply andb_true_iff in H as [H _].
  rewrite (contains_at_strip (embed url +:+ LF)).
  - apply andb_false_r.
  - apply contains_app_l, embed_contains_at, H.
Qed.

Lemma clone_url_with_token_idempotent url :
  clone_url_with_token env (clone_url_with_token env url)
  = clone_url_with_token env url.
Proof.
  unfold clone_url_with_token.
  destruct (plain_https url) eqn:H.
  - assert (H' : plain_https (embed url) = false).
    { unfold plain_https in *. apply andb_true_iff in H as [H _].
      rewrite (embed_contains_at _ H). apply andb_false_r. }
    now rewrite H'.
  - now rewrite H.
Qed.

Lemma fix_events_not_print path evs :
  forallb (is_fix_event path) evs = true -> existsb is_print evs = false.
Proof.
  induction evs as [|e evs IH]; [reflexivity|]; cbn.
  intros H. apply andb_true_iff in H as [He H].
  rewrite (IH H). destruct e; try discriminate; reflexivity.
Qed.

(** The output of [git remote get-url], stripped, is the stored URL
    stripped. *)
Lemma strip_output u : PyStr.strip (u +:+ LF) = PyStr.strip u.
Proof. apply strip_line_feed. Qed.




(** C8, as the code has it.  [fix_remote_with_token] reports nothing:
    whatever [git] does, it returns normally, without a value, and prints
    nothing; a failure to read or to rewrite the origin URL is passed over
    and the caller goes on. *)
Theorem fix_remote_with_token_reports_nothing path w :
  fst (fix_remote_with_token env path w) = Ok tt
  /\ existsb is_print (new_events w (snd (fix_remote_with_token env path w))) = false.
Proof.
  destruct (fix_remote_summary path w) as (w' & evs & E & Htr & Hev & _).
  rewrite E; cbn. split; [reflexivity|].
  rewrite (new_events_app _ _ _ Htr). eapply fix_events_not_print, Hev.
Qed.

(** Events of the credential fix-up satisfy no predicate that is false on
    [git remote get-url], [git remote set-url] and the log line. *)
Lemma fix_events_avoid (P : Event -> bool) path evs :
  (forall e, is_fix_event path e = true -> P e = false) ->
  forallb (is_fix_event path) evs = true ->
  existsb P evs = false.
Proof.
  intros HP. induction evs as [|e evs IH]; [reflexivity|]; cbn.
  intros H. apply andb_true_iff in H as [He H].
  now rewrite (HP e He), (IH H).
Qed.

Lemma fix_events_filter (P : Event -> bool) path evs :
  (forall e, is_fix_event path e = true -> P e = false) ->
  forallb (is_fix_event path) evs = true ->
  List.filter P evs = [].
Proof.
  intros HP. induction evs as [|e evs IH]; [reflexivity|]; cbn.
  intros H. apply andb_true_iff in H as [He H].
  now rewrite (HP e He), (IH H).
Qed.

Ltac not_fix_event :=
  let e := fresh "e" in
  intros e; destruct e as [?|[]|[] ?|?]; cbn; congruence.

Ltac contradict_failure H :=
  match goal with
  | Hgit : git env ?n ?c = Exited ?rc, Hrc : (?rc =? 0) = true |- _ =>
      specialize (H n); rewrite Hgit in H; cbn in H; congruence
  end.

Ltac impossible_choice :=
  match goal with
  | H : String.eqb ?c ?a = true, H' : String.eqb ?c ?b = true |- _ =>
      apply String.eqb_eq in H; subst c; vm_compute in H'; discriminate H'
  end.

Ltac explore :=
  unfold commit_if_dirty, try_except, bind, ret, raise,
    run, subprocess_run, spawn, outcome_of,
    console_print, log_action, emit, one_of, bind, ret;
  cbn;
  repeat first
    [ match goal with
      | |- context [String.eqb ?a ?b] =>
          is_var a; let Hc := fresh "Hchoice" in
          destruct (String.eqb a b) eqn:Hc; try impossible_choice; cbn
      end
    | match goal with
      | |- context [git env ?n ?c] =>
          let rc := fresh "rc" in
          let Hgit := fresh "Hgit" in
          let Hrc := fresh "Hrc" in
          destruct (git env n c) as [rc|] eqn:Hgit;
          [destruct (rc =? 0) eqn:Hrc|]; cbn
      end ].

Lemma fix_events_headings path evs :
  forallb (is_fix_event path) evs = true -> headings evs = [].
Proof.
  induction evs as [|e evs IH]; [reflexivity|]; cbn.
  intros H. apply andb_true_iff in H as [He H].
  unfold headings in *; cbn. rewrite (IH H).
  destruct e as [?|[]|[] ?|?]; cbn in *; congruence.
Qed.

Ltac open_batch_one path w1 w2 evs Htr Hev Hfs Hrem :=
  unfold batch_one;
  match goal with
  | |- context [path_join WORKSPACE ?n] =>
      generalize (path_join WORKSPACE n); intros path
  end;
  unfold bind at 1; cbn [console_print emit];
  unfold bind at 1;
  match goal with
  | |- context [fix_remote_with_token env path ?w] =>
      set (w1 := w);
      let E := fresh "Efix" in
      destruct (fix_remote_summary path w1)
        as (w2 & evs & E & Htr & Hev & Hfs & _ & _ & Hrem);
      rewrite E;
      assert (Hw2 : w2 = snd (fix_remote_with_token env path w1))
        by (now rewrite E)
  end.

Lemma headings_app a b : headings (a ++ b) = headings a ++ headings b.
Proof. apply flat_map_app. Qed.

Ltac rewrite_exit_tests :=
  repeat match goal with
         | H : (_ =? 0) = _ |- _ => rewrite H
         end.

(** The trace of one turn of the batch loop: the turn always ends normally;
    it adds the heading, the events of the fix-up, and what the chosen
    policy does.  [path] is the repository's directory. *)
Lemma batch_one_trace choice commit_msg repo_name w :
  let path := path_join WORKSPACE repo_name in
  exists w' evs,
    batch_one env choice commit_msg repo_name w = (Ok tt, w')
    /\ trace w' = trace w ++ evs
    /\ headings evs = [repo_name]
    /\ (one_of choice ["1"; "2"; "3"] = true ->
        length (List.filter (is_batch_report choice) evs) = 1%nat)
    /\ (String.eqb choice "3" = true ->
        (forall n, succeeded (git env n (Pull path)) = false) ->
        existsb is_push_step evs = false
        /\ existsb (is_failed_for repo_name) evs = true)
    /\ (String.eqb choice "2" = true ->
        existsb (is_push_of path) evs = existsb (is_commit_exit true path) evs
        /\ existsb is_nothing_to_commit evs
           = existsb (is_commit_exit false path) evs
        /\ existsb (is_commit_exit false path) evs
           && existsb (is_push_of path) evs = false)
    /\ (exists w1,
          remotes w1 = remotes w
          /\ remotes w' = remotes (snd (fix_remote_with_token env path w1))).
Proof.
  cbv zeta.
  open_batch_one path w1 w2 evs Htr Hev Hfs Hrem.
  pose proof (fix_events_headings _ _ Hev) as Hh.
  assert (Hr : List.filter (is_batch_report choice) evs = [])
    by (apply (fix_events_filter _ path); [not_fix_event | exact Hev]).
  assert (Hps : existsb is_push_step evs = false)
    by (apply (fix_events_avoid _ path); [not_fix_event | exact Hev]).
  assert (Hff : existsb (is_failed_for repo_name) evs = false)
    by (apply (fix_events_avoid _ path); [not_fix_event | exact Hev]).
  assert (Hpo : existsb (is_push_of path) evs = false)
    by (apply (fix_events_avoid _ path); [not_fix_event | exact Hev]).
  assert (Hnc : existsb is_nothing_to_commit evs = false)
    by (apply (fix_events_avoid _ path); [not_fix_event | exact Hev]).
  assert (Hce : forall z, existsb (is_commit_exit z path) evs = false)
    by (intros z; apply (fix_events_avoid _ path); [not_fix_event | exact Hev]).
  explore.
  all: eexists; eexists; split; [reflexivity|]; cbn [trace].
  all: rewrite Htr; subst w1; cbn [trace]; rewrite <- !app_assoc.
  all: split; [reflexivity|].
  all: rewrite !headings_app, Hh.
  all: split; [reflexivity|].
  all: rewrite !List.filter_app, !existsb_app, !length_app, Hr, Hps, Hff,
         Hpo, Hnc, !Hce.
  all: cbn; rewrite ?String.eqb_refl; rewrite_exit_tests; cbn.
  all: rewrite ?Hchoice, ?Hchoice0, ?Hchoice1; cbn.
  all: repeat match goal with
              | |- _ /\ _ => split
              | |- _ -> _ => intro
              end.
  all: try discriminate; try lia; try reflexivity.
  all: try match goal with
           | H : forall n, succeeded _ = false |- _ => contradict_failure H
           end.
  all: try (eexists; split; [|rewrite Hw2; reflexivity]; reflexivity).
Qed.

Lemma fix_events_clone_reports path evs :
  forallb (is_fix_event path) evs = true -> clone_reports evs = [].
Proof.
  induction evs as [|e evs IH]; [reflexivity|]; cbn.
  intros H. apply andb_true_iff in H as [He H].
  unfold clone_reports in *; cbn. rewrite (IH H).
  destruct e as [?|[]|[] ?|?]; cbn in *; congruence.
Qed.

Lemma clone_reports_app a b :
  clone_reports (a ++ b) = clone_reports a ++ clone_reports b.
Proof. apply flat_map_app. Qed.

Ltac open_clone_one dst Hdst :=
  unfold clone_one;
  match goal with
  | |- context [path_join WORKSPACE ?n] =>
      generalize (path_join WORKSPACE n); intros dst
  end;
  unfold bind at 1, os_path_exists;
  destruct (path_exists dst _) eqn:Hdst;
  unfold bind at 1; cbn [console_print emit].

Ltac run_clone Hgit Hrc :=
  unfold try_except, bind at 1;
  unfold run, bind, ret, raise, subprocess_run, spawn,
    outcome_of;
  cbn -[fix_remote_with_token];
  match goal with
  | |- context [git env ?n ?c] =>
      let rc := fresh "rc" in
      destruct (git env n c) as [rc|] eqn:Hgit;
      [destruct (rc =? 0) eqn:Hrc|];
      cbn -[fix_remote_with_token]
  end.

Ltac use_fix_summary dst w2 evs Htr Hev Hfs Hhd Hrem :=
  match goal with
  | |- context [fix_remote_with_token env dst ?w0] =>
      destruct (fix_remote_summary dst w0)
        as (w2 & evs & -> & Htr & Hev & Hfs & _ & Hhd & Hrem)
  end.

(** Every turn of the loop of [clone_to_workspace] ends normally and prints
    one result for its repository. *)
Lemma clone_one_report r w :
  exists w' evs,
    clone_one env r w = (Ok tt, w')
    /\ trace w' = trace w ++ evs
    /\ clone_reports evs = [name r].
Proof.
  open_clone_one dst Hdst.
  - use_fix_summary dst w2 evs Htr Hev Hfs Hhd Hrem.
    eexists; eexists; split; [reflexivity|].
    rewrite Htr; cbn [trace]; rewrite <- !app_assoc.
    split; [reflexivity|].
    now rewrite !clone_reports_app, (fix_events_clone_reports _ _ Hev).
  - run_clone Hgit Hrc.
    + use_fix_summary dst w2 evs Htr Hev Hfs Hhd Hrem.
      cbn. eexists; eexists; split; [reflexivity|]; cbn [trace].
      rewrite Htr; cbn [trace]; rewrite <- !app_assoc.
      split; [reflexivity|].
      now rewrite !clone_reports_app, (fix_events_clone_reports _ _ Hev).
    + eexists; eexists; split; [reflexivity|]; cbn [trace].
      rewrite <- !app_assoc. split; reflexivity.
    + eexists; eexists; split; [reflexivity|]; cbn [trace].
      rewrite <- !app_assoc. split; reflexivity.
Qed.

(** A loop whose body always ends normally visits every element; its events
    are those of the turns, in order. *)
Lemma for_each_events {A} (body : A -> M unit) (R : A -> list Event -> Prop) :
  (forall x w, exists w' evs,
      body x w = (Ok tt, w') /\ trace w' = trace w ++ evs /\ R x evs) ->
  forall xs w, exists w' evss,
      for_each xs body w = (Ok tt, w')
      /\ trace w' = trace w ++ concat evss
      /\ Forall2 R xs evss.
Proof.
  intros Hbody. induction xs as [|x xs IH]; intros w; cbn.
  - exists w, []. cbn. rewrite app_nil_r. repeat split. constructor.
  - unfold bind.
    destruct (Hbody x w) as (w1 & evs & -> & Htr & HR).
    destruct (IH w1) as (w2 & evss & -> & Htr2 & HR2).
    exists w2, (evs :: evss). cbn.
    rewrite Htr2, Htr, <- app_assoc. repeat split. now constructor.
Qed.

Lemma concat_flat_map {A B} (f : A -> list B) (ls : list (list A)) :
  flat_map f (concat ls) = concat (map (flat_map f) ls).
Proof.
  induction ls as [|l ls IH]; [reflexivity|]; cbn.
  now rewrite flat_map_app, IH.
Qed.

Lemma concat_singletons {A B} (f : A -> B) (g : list Event -> list B) xs evss :
  Forall2 (fun x evs => g evs = [f x]) xs evss ->
  concat (map g evss) = map f xs.
Proof.
  induction 1 as [|x evs xs evss H _ IH]; [reflexivity|]; cbn.
  now rewrite H, IH.
Qed.



(** ** The policies *)

(** What [commit_if_dirty] does, from the outcomes of [git add] and
    [git commit].  When staging does not succeed, its error is raised and
    no commit is run; otherwise one commit is run, and the result is the
    test of its exit status. *)
Lemma commit_if_dirty_trace path message w :
  exists w',
    commit_if_dirty env path message w
    = (if succeeded (git env (clock w) (AddAll path))
       then match git env (S (clock w)) (Commit path message) with
            | Exited rc => Ok (rc =? 0)
            | NotStarted => Raise (OSError "git")
            end
       else Raise (error_of (AddAll path) (git env (clock w) (AddAll path))),
       w')
    /\ trace w'
       = trace w
         ++ Exec (AddAll path) (git env (clock w) (AddAll path))
            :: (if succeeded (git env (clock w) (AddAll path))
                then [Exec (Commit path message)
                        (git env (S (clock w)) (Commit path message))]
                else []).
Proof.
  explore; eexists; cbn [succeeded error_of]; rewrite_exit_tests;
    (split; [reflexivity|]); cbn [trace]; rewrite <- ?app_assoc; reflexivity.
Qed.

(** A turn of the batch manager under the Push policy: the heading and the
    fix-up, which ends in the world [wf]; then staging, the commit, and
    what the exit status of the commit decides. *)
Lemma batch_push_trace commit_msg repo_name w :
  exists wf w' fix_events,
    fix_remote_with_token env (path_join WORKSPACE repo_name)
      (snd (console_print (RepoHeading repo_name) w))
    = (Ok tt, wf)
    /\ trace wf = trace w ++ Print (RepoHeading repo_name) :: fix_events
    /\ forallb (is_fix_event (path_join WORKSPACE repo_name)) fix_events = true
    /\ batch_one env "2" commit_msg repo_name w = (Ok tt, w')
    /\ trace w'
       = trace wf
         ++ Exec (AddAll (path_join WORKSPACE repo_name))
              (git env (clock wf) (AddAll (path_join WORKSPACE repo_name)))
            :: (if succeeded
                     (git env (clock wf)
                        (AddAll (path_join WORKSPACE repo_name)))
                then
                  Exec (Commit (path_join WORKSPACE repo_name) commit_msg)
                    (git env (S (clock wf))
                       (Commit (path_join WORKSPACE repo_name) commit_msg))
                  :: match git env (S (clock wf))
                             (Commit (path_join WORKSPACE repo_name) commit_msg)
                     with
                     | Exited rc =>
                         if rc =? 0
                         then
                           Exec (Push (path_join WORKSPACE repo_name))
                             (git env (S (S (clock wf)))
                                (Push (path_join WORKSPACE repo_name)))
                           :: (if succeeded
                                    (git env (S (S (clock wf)))
                                       (Push (path_join WORKSPACE repo_name)))
                               then [Print Pushed; Log (LogPushed repo_name)]
                               else failed_for repo_name
                                      (error_of
                                         (Push (path_join WORKSPACE repo_name))
                                         (git env (S (S (clock wf)))
                                            (Push (path_join WORKSPACE
                                                     repo_name)))))
                         else [Print NothingToCommit]
                     | NotStarted => failed_for repo_name (OSError "git")
                     end
                else failed_for repo_name
                       (error_of (AddAll (path_join WORKSPACE repo_name))
                          (git env (clock wf)
                             (AddAll (path_join WORKSPACE repo_name))))).
Proof.
  unfold batch_one; cbv zeta.
  generalize (path_join WORKSPACE repo_name); intros path.
  unfold bind at 1; cbn [console_print emit snd].
  unfold bind at 1.
  match goal with
  | |- context [fix_remote_with_token env path ?w0] => set (w1 := w0)
  end.
  destruct (fix_remote_summary path w1) as (wf & evs & E & Htr & Hev & _).
  rewrite E. exists wf.
  unfold failed_for, error_of.
  explore.
  all: eexists; exists evs; split; [reflexivity|].
  all: cbn [succeeded]; rewrite_exit_tests.
  all: split;
         [rewrite Htr; subst w1; cbn [trace]; now rewrite <- app_assoc|].
  all: split; [exact Hev|].
  all: split; [reflexivity|].
  all: cbn [trace]; rewrite <- ?app_assoc; reflexivity.
Qed.

(** C5.  Under the Push policy (choice "2" of the batch manager) a turn
    for a repository prints the heading, runs the credential fix-up, and
    then runs [commit_if_dirty]: [git add], and [git commit] when staging
    succeeded.  [wf] is the world in which that starts.  What follows is
    decided by the result of [commit_if_dirty], which is the exit status of
    [git commit]: when it is true, [git push] is run next, and "Pushed" is
    printed when the push succeeds; when it is false, "Nothing to commit"
    is printed and [git push] is not run; when [commit_if_dirty] raises,
    the failure is reported and [git push] is not run.  So [git push] is run
    if and only if [commit_if_dirty] returned true. *)
Theorem push_iff_committed commit_msg repo_name w :
  let path := path_join WORKSPACE repo_name in
  let wf := snd (fix_remote_with_token env path
                   (snd (console_print (RepoHeading repo_name) w))) in
  let add := git env (clock wf) (AddAll path) in
  let commit := git env (S (clock wf)) (Commit path commit_msg) in
  let push := git env (S (S (clock wf))) (Push path) in
  let committed := fst (commit_if_dirty env path commit_msg wf) in
  let w' := snd (batch_one env "2" commit_msg repo_name w) in
  fst (batch_one env "2" commit_msg repo_name w) = Ok tt
  /\ (exists fix_events,
        new_events w wf = Print (RepoHeading repo_name) :: fix_events
        /\ forallb (is_fix_event path) fix_events = true)
  /\ committed
     = (if succeeded add
        then match commit with
             | Exited rc => Ok (rc =? 0)
             | NotStarted => Raise (OSError "git")
             end
        else Raise (error_of (AddAll path) add))
  /\ trace w' = trace wf ++ new_events wf w'
  /\ new_events wf w'
     = new_events wf (snd (commit_if_dirty env path commit_msg wf))
       ++ match committed with
          | Ok true =>
              Exec (Push path) push
              :: (if succeeded push
                  then [Print Pushed; Log (LogPushed repo_name)]
                  else failed_for repo_name (error_of (Push path) push))
          | Ok false => [Print NothingToCommit]
          | Raise e => failed_for repo_name e
          end
  /\ new_events wf (snd (commit_if_dirty env path commit_msg wf))
     = Exec (AddAll path) add
       :: (if succeeded add then [Exec (Commit path commit_msg) commit]
           else [])
  /\ (existsb (is_push_of path) (new_events w w') = true
      <-> committed = Ok true)
  /\ (committed = Ok false ->
      existsb is_nothing_to_commit (new_events w w') = true
      /\ existsb (is_push_of path) (new_events w w') = false).
Proof.
  cbv zeta.
  destruct (batch_push_trace commit_msg repo_name w)
    as (wf & w' & fix_events & Efix & Htrf & Hev & Ebatch & Htr).
  rewrite Efix, Ebatch; cbn [fst snd].
  destruct (commit_if_dirty_trace (path_join WORKSPACE repo_name)
              commit_msg wf) as (wc & Ec & Htrc).
  rewrite Ec; cbn [fst snd].
  rewrite (new_events_app _ _ _ Htrf), (new_events_app _ _ _ Htr),
    (new_events_app _ _ _ Htrc).
  assert (Hall : trace w'
                 = trace w ++ (Print (RepoHeading repo_name) :: fix_events)
                   ++ drop (length (trace wf)) (trace w')).
  { fold (new_events wf w'). rewrite (new_events_app _ _ _ Htr).
    rewrite Htr, Htrf. now rewrite <- app_assoc. }
  rewrite (new_events_app w w' _ Hall).
  fold (new_events wf w'). rewrite (new_events_app _ _ _ Htr).
  assert (Hpo : existsb (is_push_of (path_join WORKSPACE repo_name)) fix_events
                = false)
    by (apply (fix_events_avoid _ (path_join WORKSPACE repo_name));
        [not_fix_event | exact Hev]).
  assert (Hnc : existsb is_nothing_to_commit fix_events = false)
    by (apply (fix_events_avoid _ (path_join WORKSPACE repo_name));
        [not_fix_event | exact Hev]).
  split; [reflexivity|]. split; [eauto|]. split; [reflexivity|].
  split; [exact Htr|].
  rewrite !existsb_app.
  cbn [existsb is_push_of is_nothing_to_commit orb].
  rewrite Hpo, Hnc. unfold failed_for, error_of.
  destruct (git env (clock wf) (AddAll (path_join WORKSPACE repo_name)))
    as [rca|]; cbn [succeeded];
    [destruct (rca =? 0)|]; cbn.
  2, 3: repeat split; discriminate || reflexivity || (intros; discriminate).
  destruct (git env (S (clock wf))
              (Commit (path_join WORKSPACE repo_name) commit_msg))
    as [rcc|]; [destruct (rcc =? 0)|]; cbn.
  2, 3: repeat split; discriminate || reflexivity || (intros; discriminate).
  rewrite String.eqb_refl.
  destruct (git env (S (S (clock wf)))
              (Push (path_join WORKSPACE repo_name)))
    as [rcp|]; [destruct (rcp =? 0)|]; cbn;
    repeat split; discriminate || reflexivity || (intros; discriminate).
Qed.

(** The trace of menu entry 3 of [per_repo_manager]. *)
Lemma per_repo_sync_trace path w :
  exists r w' evs,
    per_repo_sync env path w = (r, w')
    /\ trace w' = trace w ++ evs
    /\ remotes w' = remotes w
    /\ (stdin w <> [] -> r = Ok tt)
    /\ ((forall n, succeeded (git env n (Pull path)) = false) ->
        existsb is_push_step evs = false
        /\ (stdin w <> [] -> existsb is_sync_failed evs = true)).
Proof.
  unfold per_repo_sync, prompt_ask, read_line.
  unfold bind at 1. unfold bind at 1. cbn [console_print emit stdin].
  destruct (stdin w) as [|line rest] eqn:Hin.
  - eexists; eexists; eexists; split; [reflexivity|]; cbn [trace].
    split; [reflexivity|]. split; [reflexivity|]. split; [congruence|].
    intros _. split; [reflexivity | congruence].
  - explore.
    all: eexists; eexists; eexists; split; [reflexivity|]; cbn [trace].
    all: rewrite <- !app_assoc; split; [reflexivity|].
    all: split; [reflexivity|].
    all: split; [reflexivity|].
    all: intros Hpull; try contradict_failure Hpull.
    all: split; reflexivity.
Qed.

(** C1, as the code has it.  Under the Sync policy a failed pull ends the
    work on that repository.  If [git pull] fails for the repository, the
    batch manager (choice "3") prints "Failed for ...", runs none of
    [git add], [git commit] and [git push], and ends the turn normally, so
    that the loop goes on with the next repository; menu entry 3 of
    [per_repo_manager] likewise runs none of them and prints
    "Sync failed". *)
Theorem sync_pull_failure_skips_push commit_msg repo_name w path wp :
  (forall n, succeeded (git env n (Pull (path_join WORKSPACE repo_name))) = false) ->
  (forall n, succeeded (git env n (Pull path)) = false) ->
  (fst (batch_one env "3" commit_msg repo_name w) = Ok tt
   /\ existsb is_push_step
        (new_events w (snd (batch_one env "3" commit_msg repo_name w))) = false
   /\ existsb (is_failed_for repo_name)
        (new_events w (snd (batch_one env "3" commit_msg repo_name w))) = true)
  /\ (existsb is_push_step
        (new_events wp (snd (per_repo_sync env path wp))) = false
      /\ (stdin wp <> [] ->
          fst (per_repo_sync env path wp) = Ok tt
          /\ existsb is_sync_failed
               (new_events wp (snd (per_repo_sync env path wp))) = true)).
Proof.
  intros Hbatch Hlocal. split.
  - destruct (batch_one_trace "3" commit_msg repo_name w)
      as (w' & evs & E & Htr & _ & _ & Hsync & _).
    rewrite E; cbn [fst snd]. rewrite (new_events_app _ _ _ Htr).
    split; [reflexivity|]. now apply Hsync.
  - destruct (per_repo_sync_trace path wp)
      as (r & w' & evs & E & Htr & _ & Hok & Hsync).
    rewrite E; cbn [fst snd]. rewrite (new_events_app _ _ _ Htr).
    destruct (Hsync Hlocal) as [Hno Hfailed]. auto.
Qed.

(** C3, as the code has it.  [commit_if_dirty] tells nothing but the exit
    status of [git commit].  It stages first.  When staging succeeds,
    exactly one [git commit] is run; the result is true when it exits with
    status zero and false when it exits with any other status, whatever the
    cause; an exception is raised only when [git] cannot be started.  When
    staging does not succeed, no commit is run and the error of the staging
    command is raised. *)
Theorem commit_if_dirty_exit_status path message w :
  let add := git env (clock w) (AddAll path) in
  let commit := git env (S (clock w)) (Commit path message) in
  (succeeded add = true ->
   new_events w (snd (commit_if_dirty env path message w))
   = [Exec (AddAll path) add; Exec (Commit path message) commit]
   /\ fst (commit_if_dirty env path message w)
      = match commit with
        | Exited rc => Ok (rc =? 0)
        | NotStarted => Raise (OSError "git")
        end)
  /\ (succeeded add = false ->
      new_events w (snd (commit_if_dirty env path message w))
      = [Exec (AddAll path) add]
      /\ fst (commit_if_dirty env path message w)
         = Raise (error_of (AddAll path) add)).
Proof.
  cbv zeta.
  destruct (commit_if_dirty_trace path message w) as (w' & E & Htr).
  rewrite E; cbn [fst snd]. rewrite (new_events_app _ _ _ Htr).
  split; intros H; rewrite H; split; reflexivity.
Qed.

(** The pull, push and sync of the per-repository menu run no command that
    touches the origin URL. *)
Lemma per_repo_entries_keep_remotes path w :
  remotes (snd (per_repo_pull env path w)) = remotes w
  /\ remotes (snd (per_repo_push env path w)) = remotes w
  /\ remotes (snd (per_repo_sync env path w)) = remotes w.
Proof.
  split; [|split].
  - unfold per_repo_pull. explore; reflexivity.
  - unfold per_repo_push, prompt_ask, read_line.
    unfold bind at 1. unfold bind at 1. cbn [console_print emit stdin].
    destruct (stdin w); [reflexivity|]. explore; reflexivity.
  - destruct (per_repo_sync_trace path w) as (r & w' & evs & -> & _ & R & _).
    exact R.
Qed.

(** ** Nothing is deleted, and the input is read forward *)

#[local] Instance keeps_paths_preorder : PreOrder keeps_paths.
Proof.
  split.
  - intros w p H; exact H.
  - intros a b c Hab Hbc p H. apply Hbc, Hab, H.
Qed.

#[local] Instance reads_forward_preorder : PreOrder reads_forward.
Proof.
  split.
  - intros w. unfold reads_forward. lia.
  - intros a b c. unfold reads_forward. lia.
Qed.

Section Respects.

Context (R : World -> World -> Prop) `{!PreOrder R}.

Lemma respects_ret {A} (a : A) : respects R (ret a).
Proof. intros w. reflexivity. Qed.

Lemma respects_raise {A} e : respects R (@raise A e).
Proof. intros w. reflexivity. Qed.

Lemma respects_bind {A B} (m : M A) (k : A -> M B) :
  respects R m -> (forall a, respects R (k a)) -> respects R (bind m k).
Proof.
  intros Hm Hk w. unfold bind. specialize (Hm w).
  destruct (m w) as [[a|e] w1]; cbn [snd] in *; [|exact Hm].
  etransitivity; [exact Hm | apply Hk].
Qed.

Lemma respects_try {A} (body : M A) handles (handler : Exn -> M A) :
  respects R body -> (forall e, respects R (handler e)) ->
  respects R (try_except body handles handler).
Proof.
  intros Hm Hk w. unfold try_except. specialize (Hm w).
  destruct (body w) as [[a|e] w1]; cbn [snd] in *; [exact Hm|].
  destruct (handles e); [|exact Hm].
  etransitivity; [exact Hm | apply Hk].
Qed.

Lemma respects_for_each {A} (body : A -> M unit) xs :
  (forall x, respects R (body x)) -> respects R (for_each xs body).
Proof.
  intros H. induction xs; cbn; [apply respects_ret|].
  apply respects_bind; auto.
Qed.

Lemma respects_pure {A} (f : World -> A) : respects R (fun w => (Ok (f w), w)).
Proof. intros w. reflexivity. Qed.

End Respects.

Lemma lookup_insert_keeps (m : gmap string FileKind) k v p :
  is_Some (m !! p) -> is_Some (<[k := v]> m !! p).
Proof.
  intros H. destruct (decide (k = p)) as [->|Hne].
  - rewrite lookup_insert_eq. eauto.
  - now rewrite lookup_insert_ne.
Qed.

Lemma path_exists_is_Some p w : path_exists p w = true <-> is_Some (fs w !! p).
Proof.
  unfold path_exists. destruct (fs w !! p); split; intros H; eauto.
  - discriminate.
  - now destruct H.
Qed.

(** Running a command removes no path. *)
Lemma effect_fs_keeps cmd o w p :
  is_Some (fs w !! p) -> is_Some (effect_fs env cmd o w !! p).
Proof.
  intros H. unfold effect_fs.
  destruct cmd; try exact H.
  destruct o as [rc|]; [|exact H].
  destruct (rc =? 0); [now do 2 apply lookup_insert_keeps|].
  destruct (left_behind env (clock w));
    [ exact H | now apply lookup_insert_keeps
    | now do 2 apply lookup_insert_keeps | now do 2 apply lookup_insert_keeps ].
Qed.

Lemma keeps_paths_insert w w' k v :
  fs w' = <[k := v]> (fs w) -> keeps_paths w w'.
Proof.
  intros E p Hp. apply path_exists_is_Some. rewrite E.
  apply lookup_insert_keeps. now apply path_exists_is_Some.
Qed.

Lemma keeps_paths_same_fs w w' : fs w' = fs w -> keeps_paths w w'.
Proof. intros E p. unfold path_exists. now rewrite E. Qed.

(** The primitives.  Each is taken apart into its cases; what remains is
    that the file system only grew, or that the input did not. *)
Ltac primitive :=
  intros w;
  repeat match goal with
         | |- context [match ?x with _ => _ end] => destruct x eqn:?
         end;
  cbn [snd];
  first
    [ reflexivity
    | apply keeps_paths_same_fs; reflexivity
    | eapply keeps_paths_insert; reflexivity
    | unfold reads_forward; cbn [stdin];
      repeat match goal with H : stdin _ = _ |- _ => rewrite H end;
      cbn [length]; lia ].

Lemma keeps_paths_spawn cmd w : keeps_paths w (snd (spawn env cmd w)).
Proof.
  intros p Hp. apply path_exists_is_Some; cbn [snd spawn fs].
  apply effect_fs_keeps. now apply path_exists_is_Some.
Qed.

Lemma reads_forward_spawn cmd w : reads_forward w (snd (spawn env cmd w)).
Proof. unfold reads_forward; cbn. lia. Qed.

Lemma spawn_respects R cmd `{!PreOrder R} :
  (forall w, R w (snd (spawn env cmd w))) ->
  respects R (subprocess_run env cmd) /\ respects R (check_output env cmd).
Proof.
  intros H. split; intros w; specialize (H w).
  - unfold subprocess_run. destruct (spawn env cmd w) as [[rc|] w']; exact H.
  - unfold check_output.
    destruct (spawn env cmd w) as [[rc|] w']; [destruct (rc =? 0)|]; exact H.
Qed.

Lemma harmless_subprocess_run cmd : respects keeps_paths (subprocess_run env cmd).
Proof. exact (proj1 (spawn_respects keeps_paths cmd (keeps_paths_spawn cmd))). Qed.

Lemma harmless_check_output cmd : respects keeps_paths (check_output env cmd).
Proof. exact (proj2 (spawn_respects keeps_paths cmd (keeps_paths_spawn cmd))). Qed.

Lemma forward_subprocess_run cmd :
  respects reads_forward (subprocess_run env cmd).
Proof.
  exact (proj1 (spawn_respects reads_forward cmd (reads_forward_spawn cmd))).
Qed.

Lemma forward_check_output cmd :
  respects reads_forward (check_output env cmd).
Proof.
  exact (proj2 (spawn_respects reads_forward cmd (reads_forward_spawn cmd))).
Qed.

Lemma harmless_emit e : respects keeps_paths (emit e).
Proof. unfold emit. primitive. Qed.

Lemma forward_emit e : respects reads_forward (emit e).
Proof. unfold emit. primitive. Qed.

Lemma harmless_read_line : respects keeps_paths read_line.
Proof. unfold read_line. primitive. Qed.

Lemma forward_read_line : respects reads_forward read_line.
Proof. unfold read_line. primitive. Qed.

Lemma harmless_os_makedirs q : respects keeps_paths (os_makedirs q).
Proof. unfold os_makedirs. primitive. Qed.

Lemma forward_os_makedirs q : respects reads_forward (os_makedirs q).
Proof. unfold os_makedirs. primitive. Qed.

Lemma harmless_user_get_repos : respects keeps_paths (user_get_repos env).
Proof. unfold user_get_repos. primitive. Qed.

Lemma forward_user_get_repos : respects reads_forward (user_get_repos env).
Proof. unfold user_get_repos. primitive. Qed.

Lemma confirm_answer_shorter default lines :
  (length (snd (confirm_answer default lines)) <= length lines)%nat.
Proof.
  induction lines as [|line rest IH]; cbn; [lia|].
  destruct (String.eqb line ""); cbn; [lia|].
  repeat match goal with
         | |- context [if ?b then _ else _] => destruct b; cbn; try lia
         end.
Qed.

Lemma harmless_confirm_ask text default : respects keeps_paths (confirm_ask text default).
Proof.
  unfold confirm_ask, console_print.
  apply respects_bind; [typeclasses eauto | apply harmless_emit|].
  intros _ w. destruct (confirm_answer default (stdin w)) as [[b|] rest];
    now apply keeps_paths_same_fs.
Qed.

Lemma forward_confirm_ask text default :
  respects reads_forward (confirm_ask text default).
Proof.
  unfold confirm_ask, console_print.
  apply respects_bind; [typeclasses eauto | apply forward_emit|].
  intros _ w. pose proof (confirm_answer_shorter default (stdin w)) as H.
  destruct (confirm_answer default (stdin w)) as [[b|] rest];
    unfold reads_forward; cbn in *; lia.
Qed.

Create HintDb respects.

Hint Resolve harmless_subprocess_run harmless_check_output harmless_emit
  harmless_read_line harmless_os_makedirs harmless_user_get_repos
  harmless_confirm_ask
  forward_subprocess_run forward_check_output forward_emit
  forward_read_line forward_os_makedirs forward_user_get_repos
  forward_confirm_ask : respects.

(** Takes a computation apart along its binds, handlers and branches. *)
Ltac by_structure :=
  unfold harmless, console_print, log_action, os_path_exists,
    os_path_isdir, get_world;
  repeat first
    [ match goal with |- forall _, _ => intro end
    | progress cbv zeta
    | solve [auto with respects]
    | apply respects_ret; typeclasses eauto
    | apply respects_raise; typeclasses eauto
    | apply respects_pure; typeclasses eauto
    | apply respects_bind; [typeclasses eauto | |]
    | apply respects_try; [typeclasses eauto | |]
    | apply respects_for_each; [typeclasses eauto |]
    | match goal with
      | |- respects _ (if ?b then _ else _) => destruct b
      | |- respects _ (match ?x with _ => _ end) => destruct x
      end ].

Lemma harmless_run cmd silent : respects keeps_paths (run env cmd silent).
Proof. unfold run. by_structure. Qed.

Lemma forward_run cmd silent : respects reads_forward (run env cmd silent).
Proof. unfold run. by_structure. Qed.

Hint Resolve harmless_run forward_run : respects.

Lemma harmless_fix_remote path : respects keeps_paths (fix_remote_with_token env path).
Proof. unfold fix_remote_with_token, safe_run. by_structure. Qed.

Lemma forward_fix_remote path :
  respects reads_forward (fix_remote_with_token env path).
Proof. unfold fix_remote_with_token, safe_run. by_structure. Qed.

Lemma harmless_list_repos limit : respects keeps_paths (list_repos env limit).
Proof. unfold list_repos. by_structure. Qed.

Lemma forward_list_repos limit :
  respects reads_forward (list_repos env limit).
Proof. unfold list_repos. by_structure. Qed.

Lemma harmless_prompt_ask text default : respects keeps_paths (prompt_ask text default).
Proof. unfold prompt_ask. by_structure. Qed.

Lemma forward_prompt_ask text default :
  respects reads_forward (prompt_ask text default).
Proof. unfold prompt_ask. by_structure. Qed.

Hint Resolve harmless_fix_remote forward_fix_remote harmless_list_repos
  forward_list_repos harmless_prompt_ask forward_prompt_ask : respects.

Lemma harmless_clone_one r : respects keeps_paths (clone_one env r).
Proof. unfold clone_one. by_structure. Qed.

Hint Resolve harmless_clone_one : respects.

Lemma harmless_clone_all to_clone : respects keeps_paths (clone_all env to_clone).
Proof. unfold clone_all. by_structure. Qed.

Lemma harmless_per_repo_clone path : respects keeps_paths (per_repo_clone env path).
Proof. unfold per_repo_clone. by_structure. Qed.

Lemma harmless_batch_one choice commit_msg repo_name :
  respects keeps_paths (batch_one env choice commit_msg repo_name).
Proof. unfold batch_one, commit_if_dirty. by_structure. Qed.

(** ** Cloning *)

(** The turn of the clone loop for a repository whose directory exists:
    nothing is cloned and the file system is left as it is; the turn prints
    "Already exists, skipping" and runs the fix-up on the directory. *)
Lemma clone_one_existing r w :
  path_exists (path_join WORKSPACE (name r)) w = true ->
  exists w' o rest,
    clone_one env r w = (Ok tt, w')
    /\ trace w' = trace w
                  ++ Print (AlreadyExists (name r))
                     :: Exec (RemoteGetUrl (path_join WORKSPACE (name r))) o
                     :: rest
    /\ existsb is_clone rest = false
    /\ fs w' = fs w.
Proof.
  unfold clone_one.
  generalize (path_join WORKSPACE (name r)); intros dst Hdst.
  unfold bind at 1, os_path_exists. rewrite Hdst.
  unfold bind at 1; cbn [console_print emit].
  use_fix_summary dst w2 evs Htr Hev Hfs Hhd Hrem.
  destruct Hhd as (o & rest & ->).
  exists w2, o, rest. split; [reflexivity|].
  rewrite Htr; cbn [trace]; rewrite <- !app_assoc.
  split; [reflexivity|]. split; [|exact Hfs].
  cbn in Hev. apply andb_true_iff in Hev as [_ Hev].
  apply (fix_events_avoid _ dst); [not_fix_event | exact Hev].
Qed.

(** The turn for a repository whose directory does not exist: [git clone]
    is run with the token in the URL; when it succeeds the fix-up follows,
    when it fails the failure is printed and nothing else is done.  The
    file system at the end of the turn is as [git clone] left it. *)
Lemma clone_one_fresh r w :
  path_exists (path_join WORKSPACE (name r)) w = false ->
  exists w' o rest,
    clone_one env r w = (Ok tt, w')
    /\ o = git env (clock w)
             (Clone (clone_url_with_token env (clone_url r))
                (path_join WORKSPACE (name r)))
    /\ trace w' = trace w
                  ++ Print (Cloning (full_name r))
                     :: Exec (Clone (clone_url_with_token env (clone_url r))
                                (path_join WORKSPACE (name r))) o
                     :: rest
    /\ existsb is_clone rest = false
    /\ (if succeeded o
        then exists o' rest',
               rest = Exec (RemoteGetUrl (path_join WORKSPACE (name r))) o'
                      :: rest'
        else rest = [Print (CloneFailedFor (name r)
                              (error_of
                                 (Clone (clone_url_with_token env (clone_url r))
                                    (path_join WORKSPACE (name r))) o))])
    /\ (forall p, path_exists p w = true -> path_exists p w' = true)
    /\ fs w' = effect_fs env
                 (Clone (clone_url_with_token env (clone_url r))
                    (path_join WORKSPACE (name r))) o w
    /\ (succeeded o = false ->
        remotes w' = effect_remotes env
                       (Clone (clone_url_with_token env (clone_url r))
                          (path_join WORKSPACE (name r))) o w).
Proof.
  unfold clone_one.
  generalize (path_join WORKSPACE (name r)); intros dst Hdst.
  unfold bind at 1, os_path_exists. rewrite Hdst.
  unfold bind at 1; cbn [console_print emit].
  run_clone Hgit Hrc.
  - use_fix_summary dst w2 evs Htr Hev Hfs Hhd Hrem.
    cbn in Hfs.
    cbn. eexists; eexists; eexists; split; [reflexivity|].
    split; [reflexivity|]. cbn [trace].
    rewrite Htr; cbn [trace]; rewrite <- !app_assoc.
    split; [reflexivity|]. cbn [succeeded]. rewrite Hrc.
    split; [|split; [|split; [|split]]].
    + rewrite existsb_app.
      rewrite (fix_events_avoid is_clone dst evs);
        [reflexivity | not_fix_event | exact Hev].
    + destruct Hhd as (o' & rest' & ->).
      now exists o', (rest' ++ [Print (Cloned (name r));
                                Log (LogCloned (full_name r) dst)]).
    + intros p Hp. apply path_exists_is_Some. cbn [fs]. rewrite Hfs.
      apply path_exists_is_Some in Hp. now do 2 apply lookup_insert_keeps.
    + cbn [fs]. rewrite Hfs. reflexivity.
    + discriminate.
  - eexists; eexists; eexists; split; [reflexivity|].
    split; [reflexivity|]. cbn [trace]. rewrite <- !app_assoc.
    split; [reflexivity|]. cbn [succeeded]. rewrite Hrc.
    split; [reflexivity|]. split; [reflexivity|]. split; [|split].
    + intros p Hp. apply path_exists_is_Some. cbn [fs].
      apply path_exists_is_Some in Hp.
      destruct (left_behind env (clock w));
        [ exact Hp | now apply lookup_insert_keeps
        | now do 2 apply lookup_insert_keeps
        | now do 2 apply lookup_insert_keeps ].
    + reflexivity.
    + intros _. reflexivity.
  - eexists; eexists; eexists; split; [reflexivity|].
    split; [reflexivity|]. cbn [trace]. rewrite <- !app_assoc.
    split; [reflexivity|]. split; [reflexivity|]. cbn [succeeded].
    split; [reflexivity|]. split; [|split].
    + intros p Hp. exact Hp.
    + reflexivity.
    + reflexivity.
Qed.

Lemma no_clone_no_clone_of p evs :
  existsb is_clone evs = false -> existsb (is_clone_of p) evs = false.
Proof.
  induction evs as [|e evs IH]; [reflexivity|]; cbn.
  intros H. apply orb_false_iff in H as [He H]. rewrite (IH H), orb_false_r.
  destruct e as [?|?|[] ?|?]; cbn in *; congruence.
Qed.

(** A turn of the clone loop removes nothing, and it does not clone into a
    path that exists. *)
Lemma clone_one_keeps r w p :
  path_exists p w = true ->
  path_exists p (snd (clone_one env r w)) = true
  /\ existsb (is_clone_of p) (new_events w (snd (clone_one env r w))) = false.
Proof.
  intros Hp.
  destruct (path_exists (path_join WORKSPACE (name r)) w) eqn:Hdst.
  - destruct (clone_one_existing r w Hdst)
      as (w' & o & rest & E & Htr & Hno & Hfs).
    rewrite E; cbn [snd]. rewrite (new_events_app _ _ _ Htr). split.
    + unfold path_exists in *. now rewrite Hfs.
    + cbn. now apply no_clone_no_clone_of.
  - assert (Hne : String.eqb (path_join WORKSPACE (name r)) p = false).
    { apply String.eqb_neq. intros Heq. rewrite Heq in Hdst. congruence. }
    destruct (clone_one_fresh r w Hdst)
      as (w' & o & rest & E & _ & Htr & Hno & _ & Hkeep & _).
    rewrite E; cbn [snd]. rewrite (new_events_app _ _ _ Htr). split.
    + now apply Hkeep.
    + cbn. rewrite Hne; cbn. now apply no_clone_no_clone_of.
Qed.

(** Through the whole loop, no repository whose directory exists at the
    start is cloned. *)
Lemma clone_all_keeps to_clone w p :
  path_exists p w = true ->
  path_exists p (snd (clone_all env to_clone w)) = true
  /\ existsb (is_clone_of p) (new_events w (snd (clone_all env to_clone w)))
     = false.
Proof.
  unfold clone_all.
  revert w; induction to_clone as [|r rs IH]; intros w Hp; cbn.
  - rewrite new_events_refl. auto.
  - unfold bind.
    destruct (clone_one_report r w) as (w1 & evs & E & Htr & _).
    pose proof (clone_one_keeps r w p Hp) as [Hp1 Hc1].
    rewrite E in *; cbn [snd] in *.
    rewrite (new_events_app _ _ _ Htr) in Hc1.
    destruct (IH w1 Hp1) as [Hp2 Hc2]. split; [exact Hp2|].
    destruct (for_each_events (clone_one env) (fun _ _ => True))
      with (xs := rs) (w := w1) as (w2 & evss & E2 & Htr2 & _).
    { intros x w0. destruct (clone_one_report x w0) as (? & ? & ? & ? & _). eauto. }
    rewrite E2 in *; cbn [snd] in *.
    rewrite (new_events_app _ _ _ Htr2) in Hc2.
    rewrite (new_events_app w w2 (evs ++ concat evss)).
    + now rewrite existsb_app, Hc1, Hc2.
    + now rewrite Htr2, Htr, app_assoc.
Qed.

(** ** The clone offered by [per_repo_manager] *)

(** The user accepts the offer and selects a repository of the account;
    [n] is the number typed, [repo] the repository selected, and the parent
    of [path] can be created.  Then [git clone] is run for [path], in a
    world [w1] in which the parent of [path] has been created; the file
    system at the end is as [git clone] left it.  A clone that failed is
    reported on the last line, and the function gives [False]. *)
Lemma per_repo_clone_trace path w sel rest n all repo :
  confirm_answer false (stdin w) = (Some true, sel :: rest) ->
  get_repos env (clock w) = inr all ->
  PyStr.int sel = Some n ->
  PyStr.index (slice_to list_repos_limit all) (n - 1) = Some repo ->
  fs w !! dirname path <> Some RegularFile ->
  let cmd := Clone (clone_url_with_token env (clone_url repo)) path in
  let o := git env (S (clock w)) cmd in
  let before :=
    [ Print (NotARepo path);
      Print (Text "Clone a repo here from your account?");
      Print (Rows "Select repo to clone here" (slice_to list_repos_limit all));
      Print (Text "Select repo number");
      Makedirs (dirname path) ] in
  exists res w' w1,
    per_repo_clone env path w = (Ok res, w')
    /\ clock w1 = S (clock w)
    /\ fs w1 = <[dirname path := Directory]> (fs w)
    /\ remotes w1 = remotes w
    /\ fs w' = effect_fs env cmd o w1
    /\ res = succeeded o
    /\ (succeeded o = false ->
        remotes w' = effect_remotes env cmd o w1
        /\ trace w' = trace w ++ before
                      ++ [Print (Launch cmd); Exec cmd o;
                          Print (CloneFailed (error_of cmd o))])
    /\ (succeeded o = true ->
        exists o' after,
          trace w' = trace w ++ before
                     ++ Print (Launch cmd) :: Exec cmd o
                        :: Exec (RemoteGetUrl path) o' :: after).
Proof.
  intros Hyes Hall Hint Hidx Hdir cmd o before.
  unfold per_repo_clone, confirm_ask, list_repos, prompt_ask, read_line,
    user_get_repos, try_except, bind, console_print, emit, ret, raise.
  cbn [stdin clock fs remotes trace]. rewrite Hyes.
  cbn [negb stdin clock fs remotes trace is_Exception]. rewrite Hall.
  cbn [stdin clock fs remotes trace is_Exception].
  rewrite !int_strip, Hint, Hidx.
  unfold os_makedirs. cbn [stdin clock fs remotes trace].
  match goal with
  | |- context [match fs w !! dirname path with _ => _ end] =>
      assert (Hmk : forall (A : Type) (a b : A),
                 match fs w !! dirname path with
                 | Some RegularFile => a
                 | _ => b
                 end = b)
        by (intros A a b; destruct (fs w !! dirname path) as [[]|];
            congruence)
  end.
  rewrite Hmk. fold cmd.
  match goal with
  | |- context [run env cmd false ?w0] => set (w1 := w0)
  end.
  assert (Hrun : run env cmd false w1
                 = (if succeeded o then Ok tt else Raise (error_of cmd o),
                    {| clock := S (clock w1);
                       fs := effect_fs env cmd o w1;
                       remotes := effect_remotes env cmd o w1;
                       stdin := stdin w1;
                       trace := trace w1 ++ [Print (Launch cmd); Exec cmd o] |})).
  { unfold run, subprocess_run, spawn, outcome_of, bind, console_print, emit,
      ret, raise.
    unfold w1. cbn [clock fs remotes stdin trace cmd]. fold cmd. subst o.
    destruct (git env (S (clock w)) cmd) as [rc|];
      [destruct (rc =? 0) eqn:Hrc|]; cbn; rewrite ?Hrc;
      rewrite <- ?app_assoc; reflexivity. }
  rewrite Hrun. clear Hrun.
  destruct (succeeded o) eqn:Hok.
  - match goal with
    | |- context [fix_remote_with_token env path ?w0] =>
        destruct (fix_remote_summary path w0)
          as (w2 & evs & -> & Htr & Hev & Hfs & _ & Hhd & Hrem)
    end.
    unfold log_action, emit. cbn [fs trace] in *.
    destruct Hhd as (o' & rest' & ->).
    eexists; eexists; exists w1. split; [reflexivity|].
    split; [reflexivity|]. split; [reflexivity|]. split; [reflexivity|].
    cbn [fs]. split; [exact Hfs|]. split; [reflexivity|].
    split; [discriminate|]. intros _.
    exists o', (rest' ++ [Print (ClonedTo (name repo) path);
                          Log (LogCloned (full_name repo) path)]).
    cbn [trace]. rewrite Htr. subst w1 before. cbn [trace].
    rewrite <- !app_assoc. reflexivity.
  - eexists; eexists; exists w1. split; [reflexivity|].
    split; [reflexivity|]. split; [reflexivity|]. split; [reflexivity|].
    split; [reflexivity|]. split; [reflexivity|].
    split; [|discriminate]. intros _. split; [reflexivity|].
    cbn [trace]. subst w1 before. cbn [trace].
    rewrite <- !app_assoc. reflexivity.
Qed.

(** ** The claims about cloning and the origin URL *)

(** C2.  The Clone policy never clones over a directory that exists.  In a
    turn of the loop of [clone_to_workspace] for repository [r]: if the
    destination exists, no [git clone] is run and the file system is left
    as it is, "Already exists, skipping" is printed and the credential
    fix-up is run on the directory; if it does not exist, [git clone] is
    run first, with the token in the URL, and the fix-up follows when the
    clone succeeded (a failed clone is reported and leaves nothing to fix).
    Through the whole loop, no path that exists when the loop starts is
    cloned into, and it still exists when the loop ends. *)
Theorem clone_skips_existing_directory r w to_clone w0 :
  (path_exists (path_join WORKSPACE (name r)) w = true ->
   fst (clone_one env r w) = Ok tt
   /\ existsb is_clone (new_events w (snd (clone_one env r w))) = false
   /\ fs (snd (clone_one env r w)) = fs w
   /\ exists o rest,
        new_events w (snd (clone_one env r w))
        = Print (AlreadyExists (name r))
          :: Exec (RemoteGetUrl (path_join WORKSPACE (name r))) o :: rest)
  /\ (path_exists (path_join WORKSPACE (name r)) w = false ->
      fst (clone_one env r w) = Ok tt
      /\ exists o rest,
           new_events w (snd (clone_one env r w))
           = Print (Cloning (full_name r))
             :: Exec (Clone (clone_url_with_token env (clone_url r))
                        (path_join WORKSPACE (name r))) o
             :: rest
           /\ existsb is_clone rest = false
           /\ (if succeeded o
               then exists o' rest',
                      rest = Exec (RemoteGetUrl (path_join WORKSPACE (name r))) o'
                             :: rest'
               else exists e, rest = [Print (CloneFailedFor (name r) e)]))
  /\ (forall p,
        path_exists p w0 = true ->
        path_exists p (snd (clone_all env to_clone w0)) = true
        /\ existsb (is_clone_of p)
             (new_events w0 (snd (clone_all env to_clone w0))) = false).
Proof.
  split; [|split].
  - intros Hdst.
    destruct (clone_one_existing r w Hdst)
      as (w' & o & rest & E & Htr & Hno & Hfs).
    rewrite E; cbn [fst snd]. rewrite (new_events_app _ _ _ Htr).
    repeat split; eauto.
  - intros Hdst.
    destruct (clone_one_fresh r w Hdst)
      as (w' & o & rest & E & _ & Htr & Hno & Hnext & _).
    rewrite E; cbn [fst snd]. rewrite (new_events_app _ _ _ Htr).
    split; [reflexivity|]. exists o, rest.
    split; [reflexivity|]. split; [exact Hno|].
    destruct (succeeded o); [exact Hnext | eauto].
  - intros p Hp. now apply clone_all_keeps.
Qed.

(** A clone that succeeded has made the destination and its [.git]
    directory. *)
Lemma cloned_directories (m : gmap string FileKind) dst :
  <[path_join dst ".git" := Directory]> (<[dst := Directory]> m) !! dst
  = Some Directory
  /\ <[path_join dst ".git" := Directory]> (<[dst := Directory]> m)
       !! path_join dst ".git"
     = Some Directory.
Proof.
  split; [|apply lookup_insert_eq].
  destruct (decide (path_join dst ".git" = dst)) as [->|Hne].
  - apply lookup_insert_eq.
  - rewrite lookup_insert_ne by exact Hne. apply lookup_insert_eq.
Qed.

(** C7, as the code has it.  A clone that fails is reported and nothing is
    deleted: what the failed clone has left at the destination remains.

    Neither a turn of the loop of [clone_to_workspace] nor the clone
    offered by [per_repo_manager] removes a path that existed before.

    In [clone_to_workspace], for a repository whose directory does not
    exist, [git clone] is run; [o] is how it ends.  The turn ends normally,
    and the file system after the turn is exactly as [git clone] left it.
    When the clone failed (it exited with a status other than zero or could
    not be started), nothing follows it but the line "Failed to clone ...",
    and the origin remotes too are as [git clone] left them.  When it
    succeeded, the destination and its [.git] are directories at the end
    of the turn.

    In [per_repo_manager], when the user accepts the offer and selects a
    repository of the account by its number, [git clone] is run for [path]
    in a world [w1] in which the parent of [path] has been created.  The
    function gives [True] exactly when the clone succeeded; the file system
    afterwards is exactly as [git clone] left it; a clone that failed is
    followed by nothing but the line "Clone failed: ..."; after a clone that
    succeeded, [path] and its [.git] are directories. *)
Theorem clone_failure_deletes_nothing r w path wp sel rest n all repo :
  harmless (clone_one env r)
  /\ harmless (per_repo_clone env path)
  /\ (path_exists (path_join WORKSPACE (name r)) w = false ->
      let dst := path_join WORKSPACE (name r) in
      let cmd := Clone (clone_url_with_token env (clone_url r)) dst in
      let o := git env (clock w) cmd in
      fst (clone_one env r w) = Ok tt
      /\ fs (snd (clone_one env r w)) = effect_fs env cmd o w
      /\ (succeeded o = false ->
          new_events w (snd (clone_one env r w))
          = [ Print (Cloning (full_name r));
              Exec cmd o;
              Print (CloneFailedFor (name r) (error_of cmd o)) ]
          /\ remotes (snd (clone_one env r w)) = effect_remotes env cmd o w)
      /\ (succeeded o = true ->
          path_isdir dst (snd (clone_one env r w)) = true
          /\ path_isdir (path_join dst ".git") (snd (clone_one env r w))
             = true))
  /\ (confirm_answer false (stdin wp) = (Some true, sel :: rest) ->
      get_repos env (clock wp) = inr all ->
      PyStr.int sel = Some n ->
      PyStr.index (slice_to list_repos_limit all) (n - 1) = Some repo ->
      fs wp !! dirname path <> Some RegularFile ->
      let cmd := Clone (clone_url_with_token env (clone_url repo)) path in
      let o := git env (S (clock wp)) cmd in
      exists w1,
        clock w1 = S (clock wp)
        /\ fs w1 = <[dirname path := Directory]> (fs wp)
        /\ remotes w1 = remotes wp
        /\ fst (per_repo_clone env path wp) = Ok (succeeded o)
        /\ fs (snd (per_repo_clone env path wp)) = effect_fs env cmd o w1
        /\ (succeeded o = false ->
            new_events wp (snd (per_repo_clone env path wp))
            = [ Print (NotARepo path);
                Print (Text "Clone a repo here from your account?");
                Print (Rows "Select repo to clone here"
                         (slice_to list_repos_limit all));
                Print (Text "Select repo number");
                Makedirs (dirname path);
                Print (Launch cmd);
                Exec cmd o;
                Print (CloneFailed (error_of cmd o)) ]
            /\ remotes (snd (per_repo_clone env path wp))
               = effect_remotes env cmd o w1)
        /\ (succeeded o = true ->
            path_isdir path (snd (per_repo_clone env path wp)) = true
            /\ path_isdir (path_join path ".git")
                 (snd (per_repo_clone env path wp)) = true)).
Proof.
  split; [apply harmless_clone_one|].
  split; [apply harmless_per_repo_clone|].
  split.
  - intros Hdst. cbv zeta.
    destruct (clone_one_fresh r w Hdst)
      as (w' & o & rest' & E & Ho & Htr & _ & Hnext & _ & Hfs & Hrem).
    rewrite E; cbn [fst snd]. rewrite (new_events_app _ _ _ Htr).
    rewrite <- Ho.
    split; [reflexivity|]. split; [exact Hfs|]. split.
    + intros Hfail. rewrite Hfail in Hnext. rewrite Hnext.
      split; [reflexivity | now apply Hrem].
    + intros Hok. unfold path_isdir. rewrite Hfs.
      destruct o as [rc|]; [|discriminate]. cbn in Hok.
      cbn [effect_fs]. rewrite Hok.
      destruct (cloned_directories (fs w) (path_join WORKSPACE (name r)))
        as [-> ->].
      split; reflexivity.
  - intros Hyes Hall Hint Hidx Hdir. cbv zeta.
    destruct (per_repo_clone_trace path wp sel rest n all repo
                Hyes Hall Hint Hidx Hdir)
      as (res & w' & w1 & E & Hclock & Hfs1 & Hrem1 & Hfs & Hres & Hfail & Hok).
    rewrite E; cbn [fst snd]. exists w1.
    split; [exact Hclock|]. split; [exact Hfs1|]. split; [exact Hrem1|].
    split; [now rewrite Hres|]. split; [exact Hfs|]. split.
    + intros Hf. destruct (Hfail Hf) as [Hr Htr].
      split; [|exact Hr]. now rewrite (new_events_app _ _ _ Htr).
    + intros Hs. unfold path_isdir. rewrite Hfs.
      destruct (git env (S (clock wp))
                  (Clone (clone_url_with_token env (clone_url repo)) path))
        as [rc|]; [|discriminate]. cbn in Hs.
      cbn [effect_fs]. rewrite Hs.
      destruct (cloned_directories (fs w1) path) as [-> ->].
      split; reflexivity.
Qed.

Lemma fixed_origin_plain u :
  plain_https (PyStr.strip (u +:+ LF)) = true ->
  PyStr.startswith ("https://" +:+ TOKEN env +:+ "@") (fixed_origin env u)
  = true.
Proof.
  intros H. unfold fixed_origin; cbv zeta. rewrite H.
  apply embed_startswith.
  unfold plain_https in H. now apply andb_true_iff in H as [? _].
Qed.

Lemma fixed_origin_other u :
  plain_https (PyStr.strip (u +:+ LF)) = false -> fixed_origin env u = u.
Proof. intros H. unfold fixed_origin; cbv zeta. now rewrite H. Qed.

(** The URL given to [git clone] for a plain HTTPS clone URL already has
    the token, and the fix-up leaves it alone. *)
Lemma fixed_origin_cloned url :
  plain_https url = true ->
  fixed_origin env (clone_url_with_token env url) = embed url.
Proof.
  intros H. unfold clone_url_with_token. rewrite H.
  apply fixed_origin_other, embed_not_plain, H.
Qed.

Lemma fix_remote_fixed_origin path u w :
  (forall n p, git env n (RemoteGetUrl p) = Exited 0) ->
  (forall n p new, git env n (RemoteSetUrl p new) = Exited 0) ->
  remotes w !! path = Some u ->
  remotes (snd (fix_remote_with_token env path w)) !! path
  = Some (fixed_origin env u).
Proof.
  intros Hget Hset Hu.
  destruct (fix_remote_ok path u w Hu (fun n => Hget n _) (fun n => Hset n _))
    as (w2 & E2 & _ & R2).
  rewrite E2; cbn [snd]. rewrite R2. unfold fixed_origin; cbv zeta.
  destruct (plain_https (PyStr.strip (u +:+ LF)));
    [apply lookup_insert_eq | exact Hu].
Qed.

(** C9, as the code has it.  The origin URL carries the token after
    reconciliation only if it was, or was cloned from, a plain HTTPS URL.
    Let [git remote get-url] and [git remote set-url] work, and write
    [fixed_origin u] for [u] with the token embedded when [u], as the
    program reads it, is in the plain HTTPS form, and for [u] itself
    otherwise.  After a turn of the batch manager, under any choice, on a
    repository with origin URL [u], the origin URL is [fixed_origin u]; so it
    is after a turn of the clone loop on a directory that exists; after a
    turn that cloned successfully, it is [fixed_origin] of the URL given to
    [git clone].  [fixed_origin u] starts with "https://TOKEN@" when [u] is
    in the plain form, and is [u], unchanged, when it is not. *)
Theorem origin_after_reconciliation
    choice commit_msg repo_name u w r wr r' wr' :
  (forall n p, git env n (RemoteGetUrl p) = Exited 0) ->
  (forall n p new, git env n (RemoteSetUrl p new) = Exited 0) ->
  (remotes w !! path_join WORKSPACE repo_name = Some u ->
   remotes (snd (batch_one env choice commit_msg repo_name w))
     !! path_join WORKSPACE repo_name
   = Some (fixed_origin env u))
  /\ (path_exists (path_join WORKSPACE (name r)) wr = true ->
      remotes wr !! path_join WORKSPACE (name r) = Some u ->
      remotes (snd (clone_one env r wr)) !! path_join WORKSPACE (name r)
      = Some (fixed_origin env u))
  /\ (path_exists (path_join WORKSPACE (name r')) wr' = false ->
      git env (clock wr')
        (Clone (clone_url_with_token env (clone_url r'))
           (path_join WORKSPACE (name r'))) = Exited 0 ->
      remotes (snd (clone_one env r' wr')) !! path_join WORKSPACE (name r')
      = Some (fixed_origin env (clone_url_with_token env (clone_url r'))))
  /\ (plain_https (clone_url r') = true ->
      PyStr.startswith ("https://" +:+ TOKEN env +:+ "@")
        (fixed_origin env (clone_url_with_token env (clone_url r'))) = true)
  /\ (plain_https (PyStr.strip (u +:+ LF)) = true ->
      PyStr.startswith ("https://" +:+ TOKEN env +:+ "@") (fixed_origin env u)
      = true)
  /\ (plain_https (PyStr.strip (u +:+ LF)) = false -> fixed_origin env u = u).
Proof.
  intros Hget Hset. repeat apply conj.
  - intros Hu.
    destruct (batch_one_trace choice commit_msg repo_name w)
      as (w' & evs & E & _ & _ & _ & _ & _ & w1 & Hw1 & Hrem).
    rewrite E; cbn [snd]. rewrite Hrem.
    apply fix_remote_fixed_origin; auto. now rewrite Hw1.
  - unfold clone_one.
    generalize (path_join WORKSPACE (name r)); intros dst Hdst Hu.
    unfold bind at 1, os_path_exists. rewrite Hdst.
    unfold bind at 1; cbn [console_print emit].
    now apply fix_remote_fixed_origin.
  - unfold clone_one.
    generalize (path_join WORKSPACE (name r')); intros dst Hdst Hgit.
    unfold bind at 1, os_path_exists. rewrite Hdst.
    unfold bind at 1; cbn [console_print emit].
    unfold try_except, bind at 1.
    unfold run, bind, ret, raise, subprocess_run, spawn, outcome_of.
    cbn -[fix_remote_with_token].
    rewrite Hgit. cbn -[fix_remote_with_token].
    match goal with
    | |- context [fix_remote_with_token env dst ?w2] =>
        pose proof (fix_remote_fixed_origin dst
                      (clone_url_with_token env (clone_url r')) w2 Hget Hset)
          as Hfix;
        destruct (fix_remote_with_token env dst w2) as [[[]|e] w3]
    end; cbn in Hfix |- *; apply Hfix, lookup_insert_eq.
  - intros H. rewrite (fixed_origin_cloned _ H). apply embed_startswith.
    unfold plain_https in H. now apply andb_true_iff in H as [? _].
  - apply fixed_origin_plain.
  - apply fixed_origin_other.
Qed.

(** C10.  [list_repos()], called with its default limit, gives at most 1000
    repositories: the first 1000 that the API lists; when the API call
    fails it gives the empty list and raises nothing. *)
Theorem list_repos_at_most_1000 w :
  exists rs,
    fst (list_repos env list_repos_limit w) = Ok rs
    /\ (length rs <= 1000)%nat
    /\ rs = match get_repos env (clock w) with
            | inr all => firstn 1000 all
            | inl _ => []
            end.
Proof.
  unfold list_repos, try_except, bind, user_get_repos, ret, console_print,
    emit, is_Exception.
  destruct (get_repos env (clock w)) as [e|all].
  - exists []. cbn. repeat split. lia.
  - exists (firstn 1000 all). cbn [fst]. repeat split.
    apply firstn_le_length.
Qed.

(** ** The menu of [per_repo_manager] ends *)

Lemma respects_at R {A} (m : M A) w r w' :
  respects R m -> m w = (r, w') -> R w w'.
Proof. intros H E. specialize (H w). now rewrite E in H. Qed.

Lemma bind_Ok_inv {A B} (m : M A) (k : A -> M B) w b w'' :
  bind m k w = (Ok b, w'') ->
  exists a w', m w = (Ok a, w') /\ k a w' = (Ok b, w'').
Proof.
  unfold bind. destruct (m w) as [[a|e] w']; [eauto | discriminate].
Qed.

Lemma prompt_ask_shortens text default w a w' :
  prompt_ask text default w = (Ok a, w') ->
  (length (stdin w') < length (stdin w))%nat.
Proof.
  unfold prompt_ask, console_print, emit, read_line, bind; cbn.
  destruct (stdin w) as [|line rest]; [discriminate|].
  destruct default as [d|]; [destruct (String.eqb line "")|];
    cbn; intros [= _ <-]; cbn; lia.
Qed.

Lemma forward_per_repo_pull path :
  respects reads_forward (per_repo_pull env path).
Proof. unfold per_repo_pull. by_structure. Qed.

Lemma forward_per_repo_push path :
  respects reads_forward (per_repo_push env path).
Proof. unfold per_repo_push, commit_if_dirty. by_structure. Qed.

Lemma forward_per_repo_sync path :
  respects reads_forward (per_repo_sync env path).
Proof. unfold per_repo_sync, commit_if_dirty. by_structure. Qed.

Lemma forward_per_repo_clone path :
  respects reads_forward (per_repo_clone env path).
Proof. unfold per_repo_clone. by_structure. Qed.

Hint Resolve forward_per_repo_pull forward_per_repo_push
  forward_per_repo_sync forward_per_repo_clone : respects.

Lemma forward_per_repo_setup : respects reads_forward (per_repo_setup env).
Proof. unfold per_repo_setup. by_structure. Qed.

(** A turn of the menu that asks for another turn has read a line. *)
Lemma per_repo_turn_shortens path w w' :
  per_repo_turn env path w = (Ok true, w') ->
  (length (stdin w') < length (stdin w))%nat.
Proof.
  unfold per_repo_turn. intros H.
  repeat match type of H with
         | bind (console_print _) _ _ = _ =>
             apply bind_Ok_inv in H as (? & ? & [= <- <-] & H); cbn [stdin] in *
         end.
  apply bind_Ok_inv in H as (ch & w1 & Hask & H).
  apply prompt_ask_shortens in Hask. cbn [stdin] in Hask.
  assert (Hle : reads_forward w1 w').
  { revert H. apply respects_at. by_structure. }
  unfold reads_forward in Hle. lia.
Qed.

(** With more fuel than lines of input, the menu loop gives its result. *)
Lemma per_repo_menu_terminates fuel path w :
  (length (stdin w) < fuel)%nat ->
  exists res, per_repo_menu env fuel path w = Some res.
Proof.
  revert w. induction fuel as [|fuel IH]; intros w Hlt; [lia|].
  cbn [per_repo_menu].
  destruct (per_repo_turn env path w) as [[[|]|e] w'] eqn:E; eauto.
  apply per_repo_turn_shortens in E. apply IH. lia.
Qed.

Lemma per_repo_manager_terminates fuel w :
  (length (stdin w) < fuel)%nat ->
  exists res, per_repo_manager env fuel w = Some res.
Proof.
  intros Hlt. unfold per_repo_manager.
  destruct (per_repo_setup env w) as [[[path|]|e] w'] eqn:E; eauto.
  apply per_repo_menu_terminates.
  apply (respects_at reads_forward) in E; [|apply forward_per_repo_setup].
  unfold reads_forward in E. lia.
Qed.

End Reconciliation.

(** ** The scenarios, run *)

Example path_join_workspace : path_join WORKSPACE "alpha" = alpha_path.
Proof. reflexivity. Qed.

(** Against C1: [git pull] fails under the Sync policy, and neither
    [git add], [git commit] nor [git push] is run afterwards. *)
Lemma sync_after_failed_pull_counterexample :
  new_events (with_alpha (Some (clone_url alpha)) [])
    (snd (batch_one (env_of git_pull_fails false) "3" "msg" "alpha"
            (with_alpha (Some (clone_url alpha)) [])))
  = [ Print (RepoHeading "alpha");
      Exec (RemoteGetUrl alpha_path) (Exited 0);
      Exec (RemoteSetUrl alpha_path
              "https://ghp_token@github.com/7heBlackLand/alpha.git")
           (Exited 0);
      Log (LogUpdatedRemote alpha_path);
      Exec (Pull alpha_path) (Exited 1);
      Print (FailedFor "alpha" (CalledProcessError (Pull alpha_path) 1));
      Log (LogError "alpha" (CalledProcessError (Pull alpha_path) 1)) ]
  /\ new_events (with_alpha (Some (clone_url alpha)) ["msg"])
       (snd (per_repo_sync (env_of git_pull_fails false) alpha_path
               (with_alpha (Some (clone_url alpha)) ["msg"])))
     = [ Print (Text "Commit message");
         Exec (Pull alpha_path) (Exited 1);
         Print (SyncFailed (CalledProcessError (Pull alpha_path) 1)) ].
Proof. split; vm_compute; reflexivity. Qed.

Lemma sync_pull_failure_witness :
  (forall n,
     succeeded (git (env_of git_pull_fails false) n
                  (Pull (path_join WORKSPACE "alpha"))) = false)
  /\ (forall n,
        succeeded (git (env_of git_pull_fails false) n (Pull alpha_path))
        = false)
  /\ ((fst (batch_one (env_of git_pull_fails false) "3" "msg" "alpha"
              (with_alpha (Some (clone_url alpha)) [])) = Ok tt
       /\ existsb is_push_step
            (new_events (with_alpha (Some (clone_url alpha)) [])
               (snd (batch_one (env_of git_pull_fails false) "3" "msg" "alpha"
                       (with_alpha (Some (clone_url alpha)) [])))) = false
       /\ existsb (is_failed_for "alpha")
            (new_events (with_alpha (Some (clone_url alpha)) [])
               (snd (batch_one (env_of git_pull_fails false) "3" "msg" "alpha"
                       (with_alpha (Some (clone_url alpha)) [])))) = true)
      /\ (existsb is_push_step
            (new_events (with_alpha (Some (clone_url alpha)) ["msg"])
               (snd (per_repo_sync (env_of git_pull_fails false) alpha_path
                       (with_alpha (Some (clone_url alpha)) ["msg"]))))
          = false
          /\ (stdin (with_alpha (Some (clone_url alpha)) ["msg"]) <> [] ->
              fst (per_repo_sync (env_of git_pull_fails false) alpha_path
                     (with_alpha (Some (clone_url alpha)) ["msg"])) = Ok tt
              /\ existsb is_sync_failed
                   (new_events (with_alpha (Some (clone_url alpha)) ["msg"])
                      (snd (per_repo_sync (env_of git_pull_fails false)
                              alpha_path
                              (with_alpha (Some (clone_url alpha)) ["msg"]))))
                 = true))).
Proof.
  split; [intros n; reflexivity|].
  split; [intros n; reflexivity|].
  apply (sync_pull_failure_skips_push (env_of git_pull_fails false));
    intros n; reflexivity.
Defined.

(** Against C3: [git commit] fails for want of an identity; the result is
    the same [false] as for a clean tree, and the batch manager prints
    "Nothing to commit". *)
Lemma commit_failure_counterexample :
  fst (commit_if_dirty (env_of git_commit_fatal false) alpha_path "msg"
         (with_alpha (Some ssh_url) [])) = Ok false
  /\ new_events (with_alpha (Some ssh_url) [])
       (snd (batch_one (env_of git_commit_fatal false) "2" "msg" "alpha"
               (with_alpha (Some ssh_url) [])))
     = [ Print (RepoHeading "alpha");
         Exec (RemoteGetUrl alpha_path) (Exited 0);
         Exec (AddAll alpha_path) (Exited 0);
         Exec (Commit alpha_path "msg") (Exited 128);
         Print NothingToCommit ].
Proof. split; vm_compute; reflexivity. Qed.

(** [git commit] fails after staging has succeeded; and staging itself
    fails, so that no commit is run. *)
Lemma commit_if_dirty_witness :
  (succeeded (git (env_of git_commit_fatal false)
                (clock (with_alpha (Some ssh_url) [])) (AddAll alpha_path))
   = true
   /\ new_events (with_alpha (Some ssh_url) [])
        (snd (commit_if_dirty (env_of git_commit_fatal false) alpha_path
                "msg" (with_alpha (Some ssh_url) [])))
      = [ Exec (AddAll alpha_path) (Exited 0);
          Exec (Commit alpha_path "msg") (Exited 128) ]
   /\ fst (commit_if_dirty (env_of git_commit_fatal false) alpha_path "msg"
             (with_alpha (Some ssh_url) [])) = Ok false)
  /\ (succeeded (git (env_of git_add_fails false)
                   (clock (with_alpha (Some ssh_url) [])) (AddAll alpha_path))
      = false
      /\ new_events (with_alpha (Some ssh_url) [])
           (snd (commit_if_dirty (env_of git_add_fails false) alpha_path
                   "msg" (with_alpha (Some ssh_url) [])))
         = [ Exec (AddAll alpha_path) (Exited 128) ]
      /\ fst (commit_if_dirty (env_of git_add_fails false) alpha_path "msg"
                (with_alpha (Some ssh_url) []))
         = Raise (CalledProcessError (AddAll alpha_path) 128)).
Proof.
  split; (split; [reflexivity|]).
  - apply (proj1 (commit_if_dirty_exit_status (env_of git_commit_fatal false)
                    alpha_path "msg" (with_alpha (Some ssh_url) []))).
    reflexivity.
  - apply (proj2 (commit_if_dirty_exit_status (env_of git_add_fails false)
                    alpha_path "msg" (with_alpha (Some ssh_url) []))).
    reflexivity.
Defined.




(** Against C7: [git clone] fails after it has fetched the repository,
    in [clone_to_workspace] and in [per_repo_manager]; the failure is
    printed and what the clone has left is still there: the destination,
    its [.git] directory and the origin remote.  At the next run of
    [clone_to_workspace] the directory counts as a repository that
    exists. *)
Lemma failed_clone_counterexample :
  path_exists alpha_path empty_workspace = false
  /\ new_events empty_workspace
       (snd (clone_one (env_of git_clone_fails true) alpha empty_workspace))
     = [ Print (Cloning "7heBlackLand/alpha");
         Exec (Clone "https://ghp_token@github.com/7heBlackLand/alpha.git"
                 alpha_path) (Exited 128);
         Print (CloneFailedFor "alpha"
                  (CalledProcessError
                     (Clone "https://ghp_token@github.com/7heBlackLand/alpha.git"
                        alpha_path) 128)) ]
  /\ path_exists alpha_path
       (snd (clone_one (env_of git_clone_fails true) alpha empty_workspace))
     = true
  /\ path_isdir (path_join alpha_path ".git")
       (snd (clone_one (env_of git_clone_fails true) alpha empty_workspace))
     = true
  /\ remotes
       (snd (clone_one (env_of git_clone_fails true) alpha empty_workspace))
     !! alpha_path
     = Some "https://ghp_token@github.com/7heBlackLand/alpha.git"
  /\ new_events
       (snd (clone_one (env_of git_clone_fails true) alpha empty_workspace))
       (snd (clone_one (env_of git_clone_fails true) alpha
               (snd (clone_one (env_of git_clone_fails true) alpha
                       empty_workspace))))
     = [ Print (AlreadyExists "alpha");
         Exec (RemoteGetUrl alpha_path) (Exited 0) ]
  /\ fst (per_repo_clone (env_of git_clone_fails true) alpha_path
            {| clock := 0; fs := fs empty_workspace; remotes := ∅;
               stdin := ["y"; "1"]; trace := [] |}) = Ok false
  /\ trace
       (snd (per_repo_clone (env_of git_clone_fails true) alpha_path
               {| clock := 0; fs := fs empty_workspace; remotes := ∅;
                  stdin := ["y"; "1"]; trace := [] |}))
     = [ Print (NotARepo alpha_path);
         Print (Text "Clone a repo here from your account?");
         Print (Rows "Select repo to clone here" [alpha; beta]);
         Print (Text "Select repo number");
         Makedirs WORKSPACE;
         Print (Launch
                  (Clone "https://ghp_token@github.com/7heBlackLand/alpha.git"
                     alpha_path));
         Exec (Clone "https://ghp_token@github.com/7heBlackLand/alpha.git"
                 alpha_path) (Exited 128);
         Print (CloneFailed
                  (CalledProcessError
                     (Clone "https://ghp_token@github.com/7heBlackLand/alpha.git"
                        alpha_path) 128)) ]
  /\ path_isdir (path_join alpha_path ".git")
       (snd (per_repo_clone (env_of git_clone_fails true) alpha_path
               {| clock := 0; fs := fs empty_workspace; remotes := ∅;
                  stdin := ["y"; "1"]; trace := [] |}))
     = true.
Proof. repeat split; vm_compute; reflexivity. Qed.

(** Against C8: the repository has no origin remote, or the URL cannot be
    rewritten; [fix_remote_with_token] returns normally and prints nothing,
    and in the second case it even logs "Updated remote". *)
Lemma fix_remote_failure_counterexample :
  fix_remote_with_token (env_of git_works false) alpha_path
    (with_alpha None [])
  = (Ok tt,
     {| clock := 1;
        fs := fs (with_alpha None []);
        remotes := ∅;
        stdin := [];
        trace := [Exec (RemoteGetUrl alpha_path) (Exited 2)] |})
  /\ fst (fix_remote_with_token (env_of git_set_url_fails false) alpha_path
            (with_alpha (Some (clone_url alpha)) [])) = Ok tt
  /\ new_events (with_alpha (Some (clone_url alpha)) [])
       (snd (fix_remote_with_token (env_of git_set_url_fails false) alpha_path
               (with_alpha (Some (clone_url alpha)) [])))
     = [ Exec (RemoteGetUrl alpha_path) (Exited 0);
         Exec (RemoteSetUrl alpha_path
                 "https://ghp_token@github.com/7heBlackLand/alpha.git")
              (Exited 128);
         Log (LogUpdatedRemote alpha_path) ]
  /\ remotes
       (snd (fix_remote_with_token (env_of git_set_url_fails false) alpha_path
               (with_alpha (Some (clone_url alpha)) [])))
     !! alpha_path = Some (clone_url alpha).
Proof. repeat split; vm_compute; reflexivity. Qed.

(** Against C9: the origin is an SSH URL; after a batch pull, which
    succeeds, it is unchanged and holds no token. *)
Lemma origin_without_token_counterexample :
  fst (batch_one (env_of git_works false) "1" "msg" "alpha"
         (with_alpha (Some ssh_url) [])) = Ok tt
  /\ new_events (with_alpha (Some ssh_url) [])
       (snd (batch_one (env_of git_works false) "1" "msg" "alpha"
               (with_alpha (Some ssh_url) [])))
     = [ Print (RepoHeading "alpha");
         Exec (RemoteGetUrl alpha_path) (Exited 0);
         Exec (Pull alpha_path) (Exited 0);
         Log (LogPulled "alpha") ]
  /\ remotes (snd (batch_one (env_of git_works false) "1" "msg" "alpha"
                     (with_alpha (Some ssh_url) [])))
     !! alpha_path = Some ssh_url
  /\ PyStr.contains (TOKEN (env_of git_works false)) ssh_url = false.
Proof. repeat split; vm_compute; reflexivity. Qed.

Lemma origin_after_reconciliation_witness :
  (forall n p, git (env_of git_works false) n (RemoteGetUrl p) = Exited 0)
  /\ (forall n p new,
        git (env_of git_works false) n (RemoteSetUrl p new) = Exited 0)
  /\ ((remotes (with_alpha (Some (clone_url alpha)) [])
         !! path_join WORKSPACE "alpha" = Some (clone_url alpha) ->
       remotes (snd (batch_one (env_of git_works false) "3" "msg" "alpha"
                       (with_alpha (Some (clone_url alpha)) [])))
         !! path_join WORKSPACE "alpha"
       = Some (fixed_origin (env_of git_works false) (clone_url alpha)))
      /\ (path_exists (path_join WORKSPACE (name alpha))
            (with_alpha (Some (clone_url alpha)) []) = true ->
          remotes (with_alpha (Some (clone_url alpha)) [])
            !! path_join WORKSPACE (name alpha)
          = Some (clone_url alpha) ->
          remotes (snd (clone_one (env_of git_works false) alpha
                          (with_alpha (Some (clone_url alpha)) [])))
            !! path_join WORKSPACE (name alpha)
          = Some (fixed_origin (env_of git_works false) (clone_url alpha)))
      /\ (path_exists (path_join WORKSPACE (name beta)) empty_workspace = false ->
          git (env_of git_works false) (clock empty_workspace)
            (Clone (clone_url_with_token (env_of git_works false)
                      (clone_url beta))
               (path_join WORKSPACE (name beta))) = Exited 0 ->
          remotes (snd (clone_one (env_of git_works false) beta
                          empty_workspace))
            !! path_join WORKSPACE (name beta)
          = Some (fixed_origin (env_of git_works false)
                    (clone_url_with_token (env_of git_works false)
                       (clone_url beta))))
      /\ (plain_https (clone_url beta) = true ->
          PyStr.startswith
            ("https://" +:+ TOKEN (env_of git_works false) +:+ "@")
            (fixed_origin (env_of git_works false)
               (clone_url_with_token (env_of git_works false)
                  (clone_url beta))) = true)
      /\ (plain_https (PyStr.strip (clone_url alpha +:+ LF)) = true ->
          PyStr.startswith
            ("https://" +:+ TOKEN (env_of git_works false) +:+ "@")
            (fixed_origin (env_of git_works false) (clone_url alpha)) = true)
      /\ (plain_https (PyStr.strip (clone_url alpha +:+ LF)) = false ->
          fixed_origin (env_of git_works false) (clone_url alpha)
          = clone_url alpha)).
Proof.
  split; [intros n p; reflexivity|].
  split; [intros n p new; reflexivity|].
  apply (origin_after_reconciliation (env_of git_works false));
    [intros n p; reflexivity | intros n p new; reflexivity].
Defined.

(** The scenario of the specification: an empty workspace and the Clone
    policy give each repository a directory whose origin URL carries the
    token. *)
Example clone_all_into_empty_workspace :
  map (fun r =>
         remotes (snd (clone_all (env_of git_works false) [alpha; beta]
                         empty_workspace))
         !! path_join WORKSPACE (name r))
      [alpha; beta]
  = [ Some "https://ghp_token@github.com/7heBlackLand/alpha.git";
      Some "https://ghp_token@github.com/7heBlackLand/beta.git" ].
Proof. vm_compute. reflexivity. Qed.

(** A turn of the batch manager under the Push policy: the commit exits
    with status zero and the push follows; staging fails and neither a
    commit nor a push is run. *)
Example batch_push_turn :
  new_events (with_alpha (Some ssh_url) [])
    (snd (batch_one (env_of git_works false) "2" "msg" "alpha"
            (with_alpha (Some ssh_url) [])))
  = [ Print (RepoHeading "alpha");
      Exec (RemoteGetUrl alpha_path) (Exited 0);
      Exec (AddAll alpha_path) (Exited 0);
      Exec (Commit alpha_path "msg") (Exited 0);
      Exec (Push alpha_path) (Exited 0);
      Print Pushed;
      Log (LogPushed "alpha") ]
  /\ new_events (with_alpha (Some ssh_url) [])
       (snd (batch_one (env_of git_add_fails false) "2" "msg" "alpha"
               (with_alpha (Some ssh_url) [])))
     = [ Print (RepoHeading "alpha");
         Exec (RemoteGetUrl alpha_path) (Exited 0);
         Exec (AddAll alpha_path) (Exited 128);
         Print (FailedFor "alpha" (CalledProcessError (AddAll alpha_path) 128));
         Log (LogError "alpha" (CalledProcessError (AddAll alpha_path) 128)) ].
Proof. split; vm_compute; reflexivity. Qed.

(** An origin URL with white space of Unicode around it is read without
    it, and rewritten. *)
Example fix_remote_strips_unicode_white_space :
  remotes
    (snd (fix_remote_with_token (env_of git_works false) alpha_path
            (with_alpha (Some (nbsp +:+ clone_url alpha +:+ ideographic_space))
               [])))
  !! alpha_path
  = Some "https://ghp_token@github.com/7heBlackLand/alpha.git".
Proof. vm_compute. reflexivity. Qed.

(** The whole functions on the scenarios. *)

Example batch_manager_sync_with_failing_pull :
  batch_workspace_manager (env_of git_pull_fails false)
    (with_alpha (Some ssh_url) ["3"; ""])
  = (Ok tt,
     {| clock := 2;
        fs := fs (with_alpha (Some ssh_url) []);
        remotes := {[ alpha_path := ssh_url ]};
        stdin := [];
        trace :=
          [ Print (Text "Batch Workspace Manager");
            Print (Text "1) Pull all");
            Print (Text "2) Push all");
            Print (Text "3) Sync all (pull then push)");
            Print (Text "4) Back");
            Print (Text "Enter (1-4)");
            Print (Text "Commit message");
            Print (RepoHeading "alpha");
            Exec (RemoteGetUrl alpha_path) (Exited 0);
            Exec (Pull alpha_path) (Exited 1);
            Print (FailedFor "alpha" (CalledProcessError (Pull alpha_path) 1));
            Log (LogError "alpha" (CalledProcessError (Pull alpha_path) 1));
            Print (Text "Batch operations completed.") ] |}).
Proof. vm_compute. reflexivity. Qed.

Example clone_to_workspace_selection :
  new_events empty_workspace
    (snd (clone_to_workspace (env_of git_works false)
            {| clock := 0; fs := fs empty_workspace; remotes := ∅;
               stdin := ["2"; " 2,, 7 "]; trace := [] |}))
  = [ Makedirs WORKSPACE;
      Print (Text "Clone to Workspace");
      Print (Text "1) Clone ALL");
      Print (Text "2) Choose specific (by number)");
      Print (Text "3) Cancel");
      Print (Text "Choice");
      Print (Rows "Repositories" [alpha; beta]);
      Print (Text "Enter numbers (comma-separated)");
      Print (Cloning "7heBlackLand/beta");
      Exec (Clone "https://ghp_token@github.com/7heBlackLand/beta.git"
              "/home/gost/7heBlackLand/beta") (Exited 0);
      Exec (RemoteGetUrl "/home/gost/7heBlackLand/beta") (Exited 0);
      Print (Cloned "beta");
      Log (LogCloned "7heBlackLand/beta" "/home/gost/7heBlackLand/beta") ].
Proof. vm_compute. reflexivity. Qed.

Example clone_to_workspace_invalid_number :
  skipn 8
    (trace (snd (clone_to_workspace (env_of git_works false)
                   {| clock := 0; fs := fs empty_workspace; remotes := ∅;
                      stdin := ["2"; "2, x"]; trace := [] |})))
  = [ Print (Text "Invalid input") ].
Proof. vm_compute. reflexivity. Qed.

Example per_repo_manager_push_then_back :
  option_map (fun res => (fst res, skipn 9 (trace (snd res))))
    (per_repo_manager (env_of git_commit_fatal false) 5
       (with_alpha (Some ssh_url) [alpha_path; "2"; ""; "9"]))
  = Some (Ok tt,
          [ Print (Text "Commit message");
            Exec (AddAll alpha_path) (Exited 0);
            Exec (Commit alpha_path DEFAULT_COMMIT_MSG) (Exited 128);
            Print NothingToCommit;
            Print (Text "Local Repo Manager");
            Print (Text "1) Pull");
            Print (Text "2) Push");
            Print (Text "3) Sync (pull + push)");
            Print (Text "4) Back");
            Print (Text "Choose (1-4)") ]).
Proof. vm_compute. reflexivity. Qed.

Example per_repo_manager_out_of_fuel :
  per_repo_manager (env_of git_commit_fatal false) 1
    (with_alpha (Some ssh_url) [alpha_path; "2"; ""; "9"])
  = None.
Proof. vm_compute. reflexivity. Qed.

(** * More properties of the program *)

Import PyStrFacts.

Section Workspace.

Variable env : Env.

(** ** [safe_run] and [list_repos] *)

(** X1.  [safe_run] gives [True] for exit status zero and [False] for every
    other exit status; when the program cannot be started at all, the
    [OSError] is not caught and leaves [safe_run]. *)
Theorem safe_run_result cmd silent w :
  fst (safe_run env cmd silent w)
  = match outcome_of env cmd w with
    | Exited rc => Ok (rc =? 0)
    | NotStarted => Raise (OSError "git")
    end.
Proof.
  unfold safe_run, try_except, run, bind, ret, raise, subprocess_run, spawn,
    console_print, emit.
  destruct silent; cbn.
  - destruct (outcome_of env cmd w) as [rc|]; cbn; [|reflexivity].
    destruct (rc =? 0); reflexivity.
  - match goal with
    | |- context [outcome_of env cmd ?w0] =>
        change (outcome_of env cmd w0) with (outcome_of env cmd w)
    end.
    destruct (outcome_of env cmd w) as [rc|]; cbn; [|reflexivity].
    destruct (rc =? 0); reflexivity.
Qed.

(** X2.  [list_repos] never raises, whatever its limit: it gives a prefix of
    what the API lists (the empty list when the API fails).  For a limit
    that is not negative the prefix has [min limit n] elements; a negative
    limit drops that many repositories from the end, as slicing does. *)
Theorem list_repos_prefix limit w :
  exists rs,
    fst (list_repos env limit w) = Ok rs
    /\ match get_repos env (clock w) with
       | inl _ => rs = []
       | inr all =>
           (exists rest, all = rs ++ rest)
           /\ (0 <= limit ->
               length rs = Nat.min (Z.to_nat limit) (length all))
           /\ (limit < 0 ->
               length rs = (length all - Z.to_nat (- limit))%nat)
       end.
Proof.
  unfold list_repos, try_except, bind, user_get_repos, ret, console_print,
    emit, is_Exception, slice_to.
  destruct (get_repos env (clock w)) as [e|all]; cbn [fst].
  - exists []. split; reflexivity.
  - eexists. split; [reflexivity|].
    destruct (limit <? 0) eqn:Hneg.
    + apply Z.ltb_lt in Hneg. split; [|split].
      * eexists. symmetry. apply firstn_skipn.
      * lia.
      * intros _. rewrite length_firstn. lia.
    + apply Z.ltb_ge in Hneg. split; [|split].
      * eexists. symmetry. apply firstn_skipn.
      * intros _. apply length_firstn.
      * lia.
Qed.

End Workspace.

(** ** Tactics for the explorations *)



Ltac no_fix_event :=
  let e := fresh "e" in
  intros e; destruct e as [?|[]|[] ?|?]; cbn; congruence.


Section Policies.

Variable env : Env.

(** ** The credential fix-up and the clone URL *)


(** X4.  The URL handed to [git clone] is never in the plain form: a plain
    HTTPS clone URL gets the token and then starts with "https://TOKEN@",
    any other URL is passed on as it is; embedding a second time changes
    nothing. *)
Theorem clone_url_never_plain url :
  plain_https (clone_url_with_token env url) = false
  /\ (plain_https url = true ->
      PyStr.startswith ("https://" +:+ TOKEN env +:+ "@")
        (clone_url_with_token env url) = true)
  /\ (plain_https url = false -> clone_url_with_token env url = url)
  /\ clone_url_with_token env (clone_url_with_token env url)
     = clone_url_with_token env url.
Proof.
  assert (Hnot : plain_https (clone_url_with_token env url) = false).
  { unfold clone_url_with_token. destruct (plain_https url) eqn:H; [|exact H].
    unfold plain_https in *. apply andb_true_iff in H as [H _].
    rewrite (embed_contains_at env _ H). apply andb_false_r. }
  split; [exact Hnot|]. split; [|split].
  - intros H. unfold clone_url_with_token. rewrite H.
    apply embed_startswith.
    unfold plain_https in H. now apply andb_true_iff in H as [? _].
  - intros H. unfold clone_url_with_token. now rewrite H.
  - unfold clone_url_with_token at 1. now rewrite Hnot.
Qed.

End Policies.

(** ** Which exceptions leave a function *)

Section Escapes.

Variable P : Exn -> World -> Prop.







Hypothesis at_end : forall w, stdin w = [] -> P EOFError w.





End Escapes.






Section EscapesOfFunctions.

Variable env : Env.





Lemma forward_per_repo_turn path :
  respects reads_forward (per_repo_turn env path).
Proof.
  pose proof reads_forward_preorder.
  unfold per_repo_turn, console_print.
  repeat first
    [ match goal with |- forall _, _ => intro end
    | progress cbv zeta
    | apply forward_emit
    | apply forward_prompt_ask
    | apply forward_per_repo_pull
    | apply forward_per_repo_push
    | apply forward_per_repo_sync
    | apply respects_ret; assumption
    | apply respects_bind; [assumption | |]
    | match goal with
      | |- respects _ (if ?b then _ else _) => destruct b
      end ].
Qed.


(** ** The menu of [per_repo_manager] and its fuel *)

Lemma per_repo_menu_more_fuel fuel fuel' path w res :
  per_repo_menu env fuel path w = Some res ->
  (fuel <= fuel')%nat ->
  per_repo_menu env fuel' path w = Some res.
Proof.
  revert fuel' w. induction fuel as [|fuel IH]; intros fuel' w; [discriminate|].
  destruct fuel' as [|fuel']; [lia|]. cbn [per_repo_menu].
  destruct (per_repo_turn env path w) as [[[|]|e] w'];
    [|now intros | now intros].
  intros H Hle. apply IH; [exact H | lia].
Qed.

Lemma per_repo_menu_forward fuel path w res :
  per_repo_menu env fuel path w = Some res ->
  reads_forward w (snd res).
Proof.
  revert w. induction fuel as [|fuel IH]; intros w; [discriminate|].
  cbn [per_repo_menu].
  pose proof (forward_per_repo_turn path w) as Hfw.
  destruct (per_repo_turn env path w) as [[[|]|e] w']; cbn [snd] in Hfw.
  - intros H. apply IH in H. unfold reads_forward in *. lia.
  - now intros [= <-].
  - now intros [= <-].
Qed.

(** X6.  The [while True] menu of [per_repo_manager] ends.  Every turn that
    asks for another one has read a line, so with more turns allowed than
    there are lines of input the function gives its result; allowing still
    more turns does not change the result; and the input is only read
    forward. *)
Theorem per_repo_manager_ends fuel w :
  (length (stdin w) < fuel)%nat ->
  exists res,
    per_repo_manager env fuel w = Some res
    /\ (forall fuel', (fuel <= fuel')%nat ->
        per_repo_manager env fuel' w = Some res)
    /\ (length (stdin (snd res)) <= length (stdin w))%nat.
Proof.
  intros Hlt.
  destruct (per_repo_manager_terminates env fuel w Hlt) as [res Hres].
  exists res. split; [exact Hres|].
  unfold per_repo_manager in *.
  pose proof (forward_per_repo_setup env w) as Hfw.
  destruct (per_repo_setup env w) as [[[path|]|e] w']; cbn [snd] in Hfw.
  - split.
    + intros fuel' Hle. now apply (per_repo_menu_more_fuel fuel).
    + apply per_repo_menu_forward in Hres. unfold reads_forward in *. lia.
  - injection Hres as <-. split; [reflexivity | exact Hfw].
  - injection Hres as <-. split; [reflexivity | exact Hfw].
Qed.

End EscapesOfFunctions.

(** ** What a function adds to the trace *)

Section Emits.

Variable env : Env.
Variable P : Event -> bool.

Lemma emits_ret {A} (a : A) : emits_only P (ret a).
Proof. intros w. exists []. now rewrite app_nil_r. Qed.

Lemma emits_raise {A} e : emits_only P (@raise A e).
Proof. intros w. exists []. now rewrite app_nil_r. Qed.

Lemma emits_pure {A} (f : World -> A) : emits_only P (fun w => (Ok (f w), w)).
Proof. intros w. exists []. now rewrite app_nil_r. Qed.

Lemma emits_bind {A B} (m : M A) (k : A -> M B) :
  emits_only P m -> (forall a, emits_only P (k a)) -> emits_only P (bind m k).
Proof.
  intros Hm Hk w. unfold bind. destruct (Hm w) as (evs & Htr & Hall).
  destruct (m w) as [[a|e] w1]; cbn [snd] in *; [|eauto].
  destruct (Hk a w1) as (evs' & Htr' & Hall').
  exists (evs ++ evs'). rewrite Htr', Htr, app_assoc, forallb_app, Hall, Hall'.
  now split.
Qed.

Lemma emits_try {A} (body : M A) handles (handler : Exn -> M A) :
  emits_only P body -> (forall e, emits_only P (handler e)) ->
  emits_only P (try_except body handles handler).
Proof.
  intros Hm Hk w. unfold try_except. destruct (Hm w) as (evs & Htr & Hall).
  destruct (body w) as [[a|e] w1]; cbn [snd] in *; [eauto|].
  destruct (handles e); cbn [snd]; [|eauto].
  destruct (Hk e w1) as (evs' & Htr' & Hall').
  exists (evs ++ evs'). rewrite Htr', Htr, app_assoc, forallb_app, Hall, Hall'.
  now split.
Qed.

Lemma emits_for_each {A} (body : A -> M unit) xs :
  (forall x, emits_only P (body x)) -> emits_only P (for_each xs body).
Proof.
  intros H. induction xs; cbn; [apply emits_ret|].
  apply emits_bind; auto.
Qed.

Lemma emits_numbers_of pieces : emits_only P (numbers_of pieces).
Proof.
  induction pieces as [|x rest IH]; cbn [numbers_of]; [apply emits_ret|].
  destruct (String.eqb _ ""); [exact IH|].
  destruct (PyStr.int _); [|apply emits_raise].
  apply emits_bind; [exact IH|]. intros ns. apply emits_ret.
Qed.

Lemma emits_emit e : P e = true -> emits_only P (emit e).
Proof. intros H w. exists [e]. cbn. now rewrite H. Qed.

Lemma emits_read_line : emits_only P read_line.
Proof.
  intros w. exists []. unfold read_line.
  destruct (stdin w); cbn; now rewrite app_nil_r.
Qed.

Lemma emits_prompt_ask text default :
  P (Print (Text text)) = true -> emits_only P (prompt_ask text default).
Proof.
  intros H. unfold prompt_ask, console_print.
  apply emits_bind; [now apply emits_emit|]. intros _.
  apply emits_bind; [apply emits_read_line|]. intros line.
  destruct default; [destruct (String.eqb line "")|]; apply emits_ret.
Qed.

Lemma emits_confirm_ask text default :
  P (Print (Text text)) = true -> emits_only P (confirm_ask text default).
Proof.
  intros H. unfold confirm_ask, console_print.
  apply emits_bind; [now apply emits_emit|]. intros _ w.
  exists []. destruct (confirm_answer default (stdin w)) as [[b|] rest];
    cbn; now rewrite app_nil_r.
Qed.

Lemma emits_os_makedirs p :
  P (Makedirs p) = true -> emits_only P (os_makedirs p).
Proof.
  intros H w. exists [Makedirs p]. unfold os_makedirs.
  destruct (fs w !! p) as [[]|]; cbn; now rewrite H.
Qed.

Lemma emits_user_get_repos : emits_only P (user_get_repos env).
Proof.
  intros w. exists []. unfold user_get_repos.
  destruct (get_repos env (clock w)); cbn; now rewrite app_nil_r.
Qed.

Lemma emits_subprocess_run cmd :
  (forall o, P (Exec cmd o) = true) -> emits_only P (subprocess_run env cmd).
Proof.
  intros H w. exists [Exec cmd (outcome_of env cmd w)].
  unfold subprocess_run, spawn.
  destruct (outcome_of env cmd w); cbn; now rewrite H.
Qed.

Lemma emits_check_output cmd :
  (forall o, P (Exec cmd o) = true) -> emits_only P (check_output env cmd).
Proof.
  intros H w. exists [Exec cmd (outcome_of env cmd w)].
  unfold check_output, spawn.
  destruct (outcome_of env cmd w) as [rc|]; [destruct (rc =? 0)|];
    cbn; now rewrite H.
Qed.

Lemma emits_run cmd silent :
  (forall o, P (Exec cmd o) = true) ->
  (silent = false -> P (Print (Launch cmd)) = true) ->
  emits_only P (run env cmd silent).
Proof.
  intros H Hl. unfold run, console_print.
  apply emits_bind.
  - destruct silent; [apply emits_ret | now apply emits_emit, Hl].
  - intros _. apply emits_bind; [now apply emits_subprocess_run|].
    intros rc. destruct (rc =? 0); [apply emits_ret | apply emits_raise].
Qed.

Lemma emits_fix_remote path :
  (forall e, is_fix_event path e = true -> P e = true) ->
  emits_only P (fix_remote_with_token env path).
Proof.
  intros H w.
  destruct (fix_remote_summary env path w) as (w' & evs & -> & Htr & Hev & _).
  exists evs. split; [exact Htr|].
  rewrite forallb_forall in *. auto.
Qed.

End Emits.

(** An event of the credential fix-up has the required property. *)
Ltac fix_event_has :=
  let e := fresh "e" in
  let H := fresh "H" in
  intros e H; destruct e as [?|[]|[] ?|?]; cbn in H |- *;
  first [discriminate H | reflexivity | exact H
        | apply String.eqb_eq in H; subst; cbn; apply String.eqb_refl ].

Ltac event_has :=
  intros; cbn; first [reflexivity | apply String.eqb_refl | congruence].

(** Takes a computation apart along its binds, handlers and branches; a
    branch that the hypotheses exclude is closed by [congruence]. *)
Ltac emissions :=
  unfold console_print, log_action, os_path_exists, os_path_isdir, get_world,
    os_listdir;
  repeat first
    [ match goal with |- forall _, _ => intro end
    | progress cbv zeta
    | assumption
    | match goal with
      | |- emits_only _ (ret _) => apply emits_ret
      | |- emits_only _ (raise _) => apply emits_raise
      | |- emits_only _ (fun w => (Ok _, w)) => apply emits_pure
      | |- emits_only _ read_line => apply emits_read_line
      | |- emits_only _ (numbers_of _) => apply emits_numbers_of
      | |- emits_only _ (user_get_repos _) => apply emits_user_get_repos
      | |- emits_only _ (emit _) => apply emits_emit; event_has
      | |- emits_only _ (prompt_ask _ _) => apply emits_prompt_ask; event_has
      | |- emits_only _ (confirm_ask _ _) => apply emits_confirm_ask; event_has
      | |- emits_only _ (os_makedirs _) => apply emits_os_makedirs; event_has
      | |- emits_only _ (run _ _ _) => apply emits_run; event_has
      | |- emits_only _ (subprocess_run _ _) =>
          apply emits_subprocess_run; event_has
      | |- emits_only _ (check_output _ _) => apply emits_check_output; event_has
      | |- emits_only _ (fix_remote_with_token _ _) =>
          apply emits_fix_remote; fix_event_has
      | |- emits_only _ (try_except _ _ _) => apply emits_try
      | |- emits_only _ (for_each _ _) => apply emits_for_each
      | |- emits_only _ (bind _ _) => apply emits_bind
      | |- emits_only _ (if ?b then _ else _) =>
          let E := fresh "E" in destruct b eqn:E; try congruence
      | |- emits_only _ (match ?x with _ => _ end) => destruct x
      end ].

Section Separation.

Variable env : Env.

(** X7.  The policies of the batch manager are separate.  For every choice,
    all [git] commands of one turn work on the directory of that turn's
    repository, every commit carries the message that was asked for, and
    nothing is cloned.  A choice other than "1" and "3" never pulls; a
    choice other than "2" and "3" never stages, commits or pushes. *)
Theorem batch_policies_are_separate choice commit_msg repo_name :
  emits_only (runs_in (path_join WORKSPACE repo_name))
    (batch_one env choice commit_msg repo_name)
  /\ emits_only (commits_with commit_msg)
       (batch_one env choice commit_msg repo_name)
  /\ emits_only no_clone (batch_one env choice commit_msg repo_name)
  /\ (one_of choice ["1"; "3"] = false ->
      emits_only no_pull (batch_one env choice commit_msg repo_name))
  /\ (one_of choice ["2"; "3"] = false ->
      emits_only no_push_step (batch_one env choice commit_msg repo_name)).
Proof.
  repeat match goal with
         | |- _ /\ _ => split
         | |- _ -> _ => intro
         end;
    unfold batch_one, commit_if_dirty; emissions.
Qed.

End Separation.

Section Commands.

Variable env : Env.

(** X8.  Each workspace function keeps to its own [git] commands.
    [clone_to_workspace] runs nothing but [git clone] and the reading and
    setting of origin URLs; [batch_workspace_manager] never clones; a turn
    of the menu of [per_repo_manager] never clones and runs every command
    on the directory the menu was opened for. *)
Theorem functions_keep_to_their_commands path :
  emits_only clone_step (clone_to_workspace env)
  /\ emits_only no_clone (batch_workspace_manager env)
  /\ emits_only no_clone (per_repo_turn env path)
  /\ emits_only (runs_in path) (per_repo_turn env path).
Proof.
  repeat split.
  - unfold clone_to_workspace, clone_all, clone_one, list_repos.
    emissions.
  - unfold batch_workspace_manager, batch_all, batch_one, commit_if_dirty.
    emissions.
  - unfold per_repo_turn, per_repo_pull, per_repo_push, per_repo_sync,
      commit_if_dirty.
    emissions.
  - unfold per_repo_turn, per_repo_pull, per_repo_push, per_repo_sync,
      commit_if_dirty.
    emissions.
Qed.


End Commands.

(** ** The directories that the batch manager visits *)

Section Listing.

Import PyStr.

Lemma leb_refl s : leb s s = true.
Proof.
  induction s as [|c s IH]; [reflexivity|]; cbn [leb].
  now rewrite Nat.ltb_irrefl.
Qed.

Lemma leb_total s t : leb s t = true \/ leb t s = true.
Proof.
  revert t. induction s as [|a s IH]; intros [|b t]; cbn [leb]; auto.
  destruct (Nat.ltb_spec (nat_of_ascii a) (nat_of_ascii b));
    destruct (Nat.ltb_spec (nat_of_ascii b) (nat_of_ascii a)); auto; lia.
Qed.

Lemma leb_trans s t u : leb s t = true -> leb t u = true -> leb s u = true.
Proof.
  revert t u. induction s as [|a s IH]; intros [|b t] [|c u]; cbn [leb];
    try congruence.
  destruct (Nat.ltb_spec (nat_of_ascii a) (nat_of_ascii b));
    destruct (Nat.ltb_spec (nat_of_ascii b) (nat_of_ascii a));
    destruct (Nat.ltb_spec (nat_of_ascii b) (nat_of_ascii c));
    destruct (Nat.ltb_spec (nat_of_ascii c) (nat_of_ascii b));
    destruct (Nat.ltb_spec (nat_of_ascii a) (nat_of_ascii c));
    destruct (Nat.ltb_spec (nat_of_ascii c) (nat_of_ascii a));
    try congruence; try lia.
  apply IH.
Qed.

Lemma insert_sorted_perm x xs : Permutation (x :: xs) (insert_sorted x xs).
Proof.
  induction xs as [|y ys IH]; cbn; [reflexivity|].
  destruct (leb x y); [reflexivity|].
  rewrite perm_swap. now constructor.
Qed.

Lemma sorted_perm xs : Permutation xs (sorted xs).
Proof.
  induction xs as [|x xs IH]; cbn; [constructor|].
  rewrite <- insert_sorted_perm. now constructor.
Qed.

Lemma insert_sorted_ascending x xs :
  StronglySorted ascending xs -> StronglySorted ascending (insert_sorted x xs).
Proof.
  induction 1 as [|y ys Hs IH Hall]; cbn; [repeat constructor|].
  destruct (leb x y) eqn:E.
  - constructor; [now constructor|]. constructor; [exact E|].
    eapply List.Forall_impl; [|exact Hall]. intros z Hz.
    exact (leb_trans _ _ _ E Hz).
  - constructor; [exact IH|].
    rewrite <- insert_sorted_perm. constructor; [|exact Hall].
    destruct (leb_total x y); [congruence | assumption].
Qed.

Lemma sorted_ascending xs : StronglySorted ascending (sorted xs).
Proof.
  induction xs as [|x xs IH]; cbn; [constructor|].
  now apply insert_sorted_ascending.
Qed.

Lemma filter_ascending (f : string -> bool) xs :
  StronglySorted ascending xs -> StronglySorted ascending (List.filter f xs).
Proof.
  induction 1 as [|y ys Hs IH Hall]; cbn; [constructor|].
  destruct (f y); [|exact IH]. constructor; [exact IH|].
  rewrite List.Forall_forall in *. intros z Hz.
  apply List.filter_In in Hz as [Hz _]. auto.
Qed.

Lemma strip_prefix_Some p s t : strip_prefix p s = Some t <-> s = p +:+ t.
Proof.
  revert s. induction p as [|a p IH]; intros s; cbn.
  - split; [now intros [= ->] | now intros ->].
  - destruct s as [|b s]; [split; discriminate|].
    destruct (Ascii.eqb_spec a b) as [->|Hne].
    + rewrite IH. split; [now intros -> | now intros [= ->]].
    + split; [discriminate | intros [= -> _]; contradiction].
Qed.

Lemma entry_of_Some dir p d :
  entry_of dir p = Some d <-> p = dir +:+ "/" +:+ d /\ plain_name d.
Proof.
  unfold entry_of, plain_name.
  change ("/" +:+ d) with (String "/" d).
  destruct (strip_prefix dir p) as [t|] eqn:E.
  - apply strip_prefix_Some in E as ->.
    assert (Hinj : forall u, dir +:+ t = dir +:+ u -> t = u)
      by (intros u; apply (String.app_inj dir)).
    destruct t as [|c t].
    { split; [discriminate|]. intros [H _]. now apply Hinj in H. }
    destruct (Ascii.eqb_spec c "/") as [->|Hne].
    + cbn. destruct (String.eqb_spec t "") as [->|Hnil]; cbn.
      { split; [discriminate|]. intros [H [Hd _]].
        apply Hinj in H. congruence. }
      destruct (contains "/" t) eqn:Hc.
      { split; [discriminate|]. intros [H [_ Hd]].
        apply Hinj in H. congruence. }
      split.
      * intros [= <-]. auto.
      * intros [H _]. apply Hinj in H. congruence.
    + split.
      * destruct c as [[] [] [] [] [] [] [] []]; try discriminate.
        contradiction.
      * intros [H _]. apply Hinj in H. congruence.
  - split; [discriminate|]. intros [-> _].
    assert (strip_prefix dir (dir +:+ String "/" d) = Some (String "/" d))
      by now apply strip_prefix_Some.
    congruence.
Qed.

Lemma plain_name_no_slash_first d :
  plain_name d -> startswith "/" d = false.
Proof.
  intros [Hne Hc]. destruct d as [|c d]; [reflexivity|].
  cbn in Hc. apply orb_false_iff in Hc as [Hc _]. exact Hc.
Qed.

Lemma ends_with_slash_no_slash d :
  contains "/" d = false -> ends_with_slash d = false.
Proof.
  induction d as [|c d IH]; [reflexivity|]. cbn.
  intros H. apply orb_false_iff in H as [Hc Hd].
  destruct d as [|c' d'].
  - rewrite andb_true_r in Hc. now rewrite Ascii.eqb_sym.
  - now apply IH.
Qed.

Lemma ends_with_slash_app a b :
  b <> "" -> ends_with_slash (a +:+ b) = ends_with_slash b.
Proof.
  intros Hb. induction a as [|c a IH]; [reflexivity|].
  rewrite PyStrFacts.append_cons. cbn.
  destruct (a +:+ b) eqn:E; [|exact IH].
  destruct a;
    [ change (EmptyString +:+ b) with b in E; congruence
    | rewrite PyStrFacts.append_cons in E; discriminate ].
Qed.

Lemma path_join_in_workspace d :
  plain_name d -> path_join WORKSPACE d = WORKSPACE +:+ "/" +:+ d.
Proof.
  intros Hd. unfold path_join.
  now rewrite (plain_name_no_slash_first d Hd).
Qed.

Lemma path_join_git d :
  plain_name d ->
  path_join (path_join WORKSPACE d) ".git" = WORKSPACE +:+ "/" +:+ d +:+ "/.git".
Proof.
  intros Hd. rewrite (path_join_in_workspace d Hd).
  unfold path_join. cbn [startswith Ascii.eqb Bool.eqb andb].
  replace (WORKSPACE +:+ "/" +:+ d) with ((WORKSPACE +:+ "/") +:+ d)
    by now rewrite PyStrFacts.append_assoc.
  rewrite ends_with_slash_app by apply Hd.
  rewrite (ends_with_slash_no_slash d) by apply Hd.
  cbn. now rewrite !PyStrFacts.append_assoc.
Qed.

Lemma entries_NoDup dir (m : gmap string FileKind) :
  NoDup (omap (entry_of dir) (map fst (map_to_list m))).
Proof.
  pose proof (NoDup_fst_map_to_list m) as Hnd.
  change (map fst (map_to_list m)) with ((map_to_list m).*1).
  induction Hnd as [|p ps Hp Hnd IH]; cbn; [constructor|].
  destruct (entry_of dir p) as [d|] eqn:E; [|exact IH].
  constructor; [|exact IH].
  intros Hin.
  apply list_elem_of_omap in Hin as (q & Hq & Eq).
  apply entry_of_Some in E as [-> _]. apply entry_of_Some in Eq as [-> _].
  contradiction.
Qed.

Lemma entries_In dir (m : gmap string FileKind) d :
  In d (omap (entry_of dir) (map fst (map_to_list m)))
  <-> plain_name d /\ is_Some (m !! (dir +:+ "/" +:+ d)).
Proof.
  rewrite <- list_elem_of_In, list_elem_of_omap. split.
  - intros (p & Hp & E). apply entry_of_Some in E as [-> Hd].
    split; [exact Hd|].
    change (map fst (map_to_list m)) with ((map_to_list m).*1) in Hp.
    apply list_elem_of_fmap in Hp as ([q k] & Hqk & Hq). cbn in Hqk.
    rewrite <- Hqk in Hq.
    apply elem_of_map_to_list in Hq. cbn. eauto.
  - intros [Hd [k Hk]]. exists (dir +:+ "/" +:+ d). split.
    + change (map fst (map_to_list m)) with ((map_to_list m).*1).
      apply list_elem_of_fmap. exists (dir +:+ "/" +:+ d, k).
      split; [reflexivity|]. now apply elem_of_map_to_list.
    + now apply entry_of_Some.
Qed.

End Listing.

Section BatchManager.

Variable env : Env.

Lemma match_nonempty {A B} (l : list A) (a b : B) :
  l <> [] -> match l with [] => a | _ :: _ => b end = b.
Proof. destruct l; congruence. Qed.

Lemma batch_all_headings choice commit_msg dirs w :
  exists w' evs,
    batch_all env choice commit_msg dirs w = (Ok tt, w')
    /\ trace w' = trace w ++ evs
    /\ headings evs = dirs.
Proof.
  destruct (for_each_events (batch_one env choice commit_msg)
              (fun n evs => headings evs = [n]))
    with (xs := dirs) (w := w) as (w' & evss & E & Htr & HR).
  { intros n w0.
    destruct (batch_one_trace env choice commit_msg n w0)
      as (w1 & evs & E & Htr & Hh & _).
    exists w1, evs. auto. }
  exists w', (concat evss). unfold batch_all. rewrite E.
  split; [reflexivity|]. split; [exact Htr|].
  unfold headings. rewrite concat_flat_map.
  now rewrite (concat_singletons (fun n => n) _ dirs), map_id.
Qed.

(** The directories that [batch_workspace_manager] works through. *)
Lemma batch_directories w :
  exists dirs,
    dirs = List.filter
             (fun d => path_isdir (path_join (path_join WORKSPACE d) ".git") w)
             (PyStr.sorted
                (List.filter (fun d => path_isdir (path_join WORKSPACE d) w)
                   (omap (entry_of WORKSPACE) (map fst (map_to_list (fs w))))))
    /\ StronglySorted ascending dirs
    /\ NoDup dirs
    /\ forall d, In d dirs <-> is_local_repository d w.
Proof.
  eexists. split; [reflexivity|]. split; [|split].
  - apply filter_ascending, sorted_ascending.
  - apply NoDup_ListNoDup, List.NoDup_filter.
    eapply Permutation_NoDup; [apply sorted_perm|].
    apply List.NoDup_filter, NoDup_ListNoDup, entries_NoDup.
  - intros d. rewrite List.filter_In.
    rewrite <- (Permutation_in' (eq_refl d) (sorted_perm _)).
    rewrite List.filter_In, entries_In. unfold is_local_repository. split.
    + intros [[[Hd _] H1] H2].
      rewrite (path_join_git d Hd) in H2.
      rewrite (path_join_in_workspace d Hd) in H1. auto.
    + intros (Hd & H1 & H2).
      rewrite (path_join_git d Hd), (path_join_in_workspace d Hd).
      repeat split; try apply Hd; auto.
      unfold path_isdir in H1.
      destruct (fs w !! (WORKSPACE +:+ "/" +:+ d)); [eauto | discriminate].
Qed.

(** What a prompt does with the next line of input. *)
Lemma prompt_ask_line text default w line rest :
  stdin w = line :: rest ->
  prompt_ask text default w
  = (Ok (match default with
         | Some d => if String.eqb line "" then d else PyStr.strip line
         | None => PyStr.strip line
         end),
     {| clock := clock w; fs := fs w; remotes := remotes w; stdin := rest;
        trace := trace w ++ [Print (Text text)] |}).
Proof.
  intros Hin. unfold prompt_ask, bind, console_print, emit, read_line.
  cbn [stdin clock fs remotes trace]. rewrite Hin.
  destruct default as [d|]; [destruct (String.eqb line "")|]; reflexivity.
Qed.

Lemma prompt_ask_end text default w :
  stdin w = [] ->
  prompt_ask text default w
  = (Raise EOFError,
     {| clock := clock w; fs := fs w; remotes := remotes w; stdin := [];
        trace := trace w ++ [Print (Text text)] |}).
Proof.
  intros Hin. unfold prompt_ask, bind, console_print, emit, read_line.
  cbn [stdin clock fs remotes trace]. now rewrite Hin.
Qed.

(** The headings that [batch_workspace_manager] prints are those of the
    local repositories, once a policy has been chosen and the function
    returns. *)
Lemma batch_workspace_manager_headings w line rest :
  path_isdir WORKSPACE w = true ->
  stdin w = line :: rest ->
  line <> "" ->
  PyStr.strip line <> "4" ->
  exists r w',
    batch_workspace_manager env w = (r, w')
    /\ (r = Ok tt ->
        headings (new_events w w')
        = List.filter
            (fun d => path_isdir (path_join (path_join WORKSPACE d) ".git") w)
            (PyStr.sorted
               (List.filter (fun d => path_isdir (path_join WORKSPACE d) w)
                  (omap (entry_of WORKSPACE)
                     (map fst (map_to_list (fs w))))))).
Proof.
  intros Hws Hin Hline Hfour.
  unfold batch_workspace_manager, os_path_isdir, os_listdir, get_world.
  unfold bind at 1. rewrite Hws. cbn [negb].
  unfold bind at 1. unfold bind at 1. cbv zeta.
  generalize (List.filter
      (fun d => path_isdir (path_join (path_join WORKSPACE d) ".git") w)
      (PyStr.sorted
         (List.filter (fun d => path_isdir (path_join WORKSPACE d) w)
            (omap (entry_of WORKSPACE) (map fst (map_to_list (fs w))))))).
  intros dirs.
  destruct (decide (dirs = [])) as [->|Hne].
  { eexists; eexists. split; [reflexivity|]. intros _.
    unfold new_events. cbn [trace]. now rewrite drop_app_length. }
  rewrite (match_nonempty dirs _ _ Hne).
  unfold bind at 1, console_print at 1, emit at 1.
  unfold bind at 1, console_print at 1, emit at 1.
  unfold bind at 1, console_print at 1, emit at 1.
  unfold bind at 1, console_print at 1, emit at 1.
  unfold bind at 1, console_print at 1, emit at 1.
  cbn [clock fs remotes stdin trace].
  unfold bind at 1.
  rewrite (prompt_ask_line _ _ _ line rest) by exact Hin.
  apply String.eqb_neq in Hline. rewrite Hline.
  rewrite strip_strip.
  apply String.eqb_neq in Hfour. rewrite Hfour.
  unfold bind at 1.
  match goal with
  | |- context [if ?b then prompt_ask ?t ?d else ret ?m] =>
      destruct b
  end.
  - destruct rest as [|line2 rest2].
    + rewrite prompt_ask_end by reflexivity.
      eexists; eexists. split; [reflexivity|]. discriminate.
    + rewrite (prompt_ask_line _ _ _ line2 rest2) by reflexivity.
      unfold bind at 1.
      match goal with
      | |- context [batch_all env ?c ?m dirs ?w0] =>
          destruct (batch_all_headings c m dirs w0)
            as (w3 & evs & E & Htr & Hh); rewrite E
      end.
      eexists; eexists. split; [reflexivity|]. intros _.
      unfold new_events. cbn [trace].
      rewrite Htr. cbn [trace]. rewrite <- !app_assoc.
      rewrite drop_app_length, !headings_app, Hh. cbn. apply app_nil_r.
  - unfold ret at 1.
    unfold bind at 1.
    match goal with
    | |- context [batch_all env ?c ?m dirs ?w0] =>
        destruct (batch_all_headings c m dirs w0)
          as (w3 & evs & E & Htr & Hh); rewrite E
    end.
    eexists; eexists. split; [reflexivity|]. intros _.
    unfold new_events. cbn [trace].
    rewrite Htr. cbn [trace]. rewrite <- !app_assoc.
    rewrite drop_app_length, !headings_app, Hh. cbn. apply app_nil_r.
Qed.

(** X10.  Once a policy has been chosen and [batch_workspace_manager]
    returns, the repositories it has worked on, in the order of their
    headings, are exactly the local repositories: the names [d] for which
    [WORKSPACE/d] and [WORKSPACE/d/.git] are directories, each of them once,
    in ascending order. *)
Theorem batch_visits_local_repositories w line rest :
  path_isdir WORKSPACE w = true ->
  stdin w = line :: rest ->
  line <> "" ->
  PyStr.strip line <> "4" ->
  fst (batch_workspace_manager env w) = Ok tt ->
  StronglySorted ascending
    (headings (new_events w (snd (batch_workspace_manager env w))))
  /\ NoDup (headings (new_events w (snd (batch_workspace_manager env w))))
  /\ forall d,
       In d (headings (new_events w (snd (batch_workspace_manager env w))))
       <-> is_local_repository d w.
Proof.
  intros Hws Hin Hline Hfour.
  destruct (batch_workspace_manager_headings w line rest Hws Hin Hline Hfour)
    as (r & w' & E & Hh).
  rewrite E; cbn [fst snd]. intros Hok. rewrite (Hh Hok).
  destruct (batch_directories w) as (dirs & <- & Hsorted & Hnodup & Hmem).
  auto.
Qed.

(** Leaving the menu of [batch_workspace_manager], by an empty line or by
    "4", runs nothing. *)
Lemma batch_workspace_manager_back w line rest :
  stdin w = line :: rest ->
  line = "" \/ PyStr.strip line = "4" ->
  exists w' evs,
    batch_workspace_manager env w = (Ok tt, w')
    /\ trace w' = trace w ++ evs
    /\ forallb is_print evs = true
    /\ fs w' = fs w
    /\ remotes w' = remotes w
    /\ clock w' = clock w.
Proof.
  intros Hin Hback.
  unfold batch_workspace_manager, os_path_isdir, os_listdir, get_world.
  unfold bind at 1.
  destruct (path_isdir WORKSPACE w); cbn [negb].
  2: { eexists; eexists. split; [reflexivity|]. cbn [trace fs remotes clock].
       repeat split; reflexivity. }
  unfold bind at 1. unfold bind at 1. cbv zeta.
  generalize (List.filter
      (fun d => path_isdir (path_join (path_join WORKSPACE d) ".git") w)
      (PyStr.sorted
         (List.filter (fun d => path_isdir (path_join WORKSPACE d) w)
            (omap (entry_of WORKSPACE) (map fst (map_to_list (fs w))))))).
  intros dirs.
  destruct (decide (dirs = [])) as [->|Hne].
  { eexists; eexists. split; [reflexivity|]. cbn [trace fs remotes clock].
    repeat split; reflexivity. }
  rewrite (match_nonempty dirs _ _ Hne).
  unfold bind at 1, console_print at 1, emit at 1.
  unfold bind at 1, console_print at 1, emit at 1.
  unfold bind at 1, console_print at 1, emit at 1.
  unfold bind at 1, console_print at 1, emit at 1.
  unfold bind at 1, console_print at 1, emit at 1.
  cbn [clock fs remotes stdin trace].
  unfold bind at 1.
  rewrite (prompt_ask_line _ _ _ line rest) by exact Hin.
  assert (Hch : String.eqb
                  (PyStr.strip (if String.eqb line "" then "4"
                                else PyStr.strip line)) "4" = true).
  { destruct Hback as [->|H4].
    - reflexivity.
    - destruct (String.eqb line ""); [reflexivity|].
      rewrite strip_strip. now apply String.eqb_eq. }
  rewrite Hch. unfold ret.
  eexists; exists [Print (Text "Batch Workspace Manager");
                   Print (Text "1) Pull all");
                   Print (Text "2) Push all");
                   Print (Text "3) Sync all (pull then push)");
                   Print (Text "4) Back");
                   Print (Text "Enter (1-4)")].
  split; [reflexivity|]. cbn [trace fs remotes clock].
  rewrite <- !app_assoc. repeat split; reflexivity.
Qed.

End BatchManager.

Section Leaving.

Variable env : Env.

(** Leaving the menu of [clone_to_workspace], by an empty line or by
    anything but "1" and "2", clones nothing. *)
Lemma clone_to_workspace_cancel w line rest :
  stdin w = line :: rest ->
  line = "" \/ (PyStr.strip line <> "1" /\ PyStr.strip line <> "2") ->
  fs w !! WORKSPACE <> Some RegularFile ->
  exists w' evs,
    clone_to_workspace env w = (Ok tt, w')
    /\ trace w' = trace w ++ evs
    /\ forallb no_exec evs = true
    /\ fs w' = <[WORKSPACE := Directory]> (fs w)
    /\ remotes w' = remotes w.
Proof.
  intros Hin Hcancel Hdir.
  unfold clone_to_workspace.
  unfold bind at 1, os_makedirs.
  assert (Hmk : forall (A : Type) (a b : A),
             match fs w !! WORKSPACE with
             | Some RegularFile => a
             | _ => b
             end = b)
    by (intros A a b; destruct (fs w !! WORKSPACE) as [[]|]; congruence).
  rewrite Hmk.
  unfold bind at 1, list_repos, try_except, bind at 1, user_get_repos.
  cbn [clock fs remotes stdin trace].
  destruct (get_repos env (clock w)) as [e|all];
    cbn [is_Exception ret bind console_print emit].
  { unfold bind, ret. cbn [clock fs remotes stdin trace].
    eexists; exists [Makedirs WORKSPACE; Print (FetchFailed e);
                     Print (Text "No repos found")].
    split; [reflexivity|]. cbn [trace fs remotes].
    rewrite <- !app_assoc. repeat split; reflexivity. }
  unfold ret at 1.
  destruct (slice_to list_repos_limit all) as [|r0 rs] eqn:Erepos.
  { eexists; exists [Makedirs WORKSPACE; Print (Text "No repos found")].
    split; [reflexivity|]. cbn [trace fs remotes].
    rewrite <- !app_assoc. repeat split; reflexivity. }
  unfold bind at 1, console_print at 1, emit at 1.
  unfold bind at 1, console_print at 1, emit at 1.
  unfold bind at 1, console_print at 1, emit at 1.
  unfold bind at 1, console_print at 1, emit at 1.
  cbn [clock fs remotes stdin trace].
  unfold bind at 1.
  rewrite (prompt_ask_line _ _ _ line rest) by exact Hin.
  assert (Hch : forall (A : Type) (a b c : A),
             (if String.eqb (PyStr.strip (if String.eqb line "" then "3"
                                          else PyStr.strip line)) "1"
              then a
              else if String.eqb (PyStr.strip (if String.eqb line "" then "3"
                                               else PyStr.strip line)) "2"
                   then b else c) = c).
  { intros A a b c. destruct Hcancel as [->|[H1 H2]].
    - reflexivity.
    - destruct (String.eqb line ""); [reflexivity|].
      rewrite strip_strip.
      apply String.eqb_neq in H1, H2. now rewrite H1, H2. }
  rewrite Hch. unfold ret.
  eexists; exists [Makedirs WORKSPACE;
                   Print (Text "Clone to Workspace");
                   Print (Text "1) Clone ALL");
                   Print (Text "2) Choose specific (by number)");
                   Print (Text "3) Cancel");
                   Print (Text "Choice")].
  split; [reflexivity|]. cbn [trace fs remotes].
  rewrite <- !app_assoc. repeat split; reflexivity.
Qed.

(** X11.  Leaving a menu runs nothing.  When the line typed at the menu of
    [batch_workspace_manager] is empty or "4", the function returns after
    printing, without a [git] command, and the file system and the origin
    remotes are as before.  When the line typed at the menu of
    [clone_to_workspace] is empty or anything but "1" and "2", the function
    returns without a [git] command; it has created the workspace
    directory, and the origin remotes are as before. *)
Theorem leaving_a_menu_runs_nothing w line rest :
  stdin w = line :: rest ->
  (line = "" \/ PyStr.strip line = "4" ->
   fst (batch_workspace_manager env w) = Ok tt
   /\ existsb is_exec
        (new_events w (snd (batch_workspace_manager env w))) = false
   /\ fs (snd (batch_workspace_manager env w)) = fs w
   /\ remotes (snd (batch_workspace_manager env w)) = remotes w)
  /\ (line = "" \/ (PyStr.strip line <> "1" /\ PyStr.strip line <> "2") ->
      fs w !! WORKSPACE <> Some RegularFile ->
      fst (clone_to_workspace env w) = Ok tt
      /\ existsb is_exec
           (new_events w (snd (clone_to_workspace env w))) = false
      /\ fs (snd (clone_to_workspace env w)) = <[WORKSPACE := Directory]> (fs w)
      /\ remotes (snd (clone_to_workspace env w)) = remotes w).
Proof.
  intros Hin. split.
  - intros Hback.
    destruct (batch_workspace_manager_back env w line rest Hin Hback)
      as (w' & evs & E & Htr & Hev & Hfs & Hrem & _).
    rewrite E; cbn [fst snd]. rewrite (new_events_app _ _ _ Htr).
    repeat split; auto.
    clear -Hev. induction evs as [|e evs IH]; [reflexivity|].
    cbn in *. apply andb_true_iff in Hev as [He Hev].
    rewrite (IH Hev). destruct e; try discriminate; reflexivity.
  - intros Hcancel Hdir.
    destruct (clone_to_workspace_cancel w line rest Hin Hcancel Hdir)
      as (w' & evs & E & Htr & Hev & Hfs & Hrem).
    rewrite E; cbn [fst snd]. rewrite (new_events_app _ _ _ Htr).
    repeat split; auto.
    clear -Hev. induction evs as [|e evs IH]; [reflexivity|].
    cbn in *. apply andb_true_iff in Hev as [He Hev].
    rewrite (IH Hev). unfold no_exec in He. now destruct (is_exec e).
Qed.

End Leaving.

(** ** The selection of [clone_to_workspace] *)

Section Selection.

Variable env : Env.

Lemma index_in_range {A} (xs : list A) n :
  (1 <=? n) && (n <=? Z.of_nat (length xs)) = true ->
  PyStr.index xs (n - 1) = nth_error xs (Z.to_nat (n - 1))
  /\ exists x, nth_error xs (Z.to_nat (n - 1)) = Some x.
Proof.
  intros H. apply andb_true_iff in H as [H1 H2].
  apply Z.leb_le in H1, H2. unfold PyStr.index. cbv zeta.
  assert (Hlo : (0 <=? n - 1) = true) by (apply Z.leb_le; lia).
  assert (Hhi : (n - 1 <? Z.of_nat (length xs)) = true)
    by (apply Z.ltb_lt; lia).
  rewrite Hlo, Hhi. cbn [andb]. split; [reflexivity|].
  destruct (nth_error xs (Z.to_nat (n - 1))) eqn:E; [eauto|].
  apply nth_error_None in E. lia.
Qed.

(** X12.  The selection by numbers keeps to the list: [pick] gives one
    repository for every number between 1 and the length of the list, in
    the order of the numbers and as often as a number is repeated, namely
    the repository at that place; every other number, also 0 and the
    negative ones, is passed over. *)
Theorem pick_in_range repos nums :
  map Some (pick repos nums)
  = map (fun n => nth_error repos (Z.to_nat (n - 1)))
      (List.filter
         (fun n => (1 <=? n) && (n <=? Z.of_nat (length repos))) nums)
  /\ Forall (fun r => In r repos) (pick repos nums).
Proof.
  unfold pick. split.
  - induction nums as [|n nums IH]; [reflexivity|]. cbn.
    destruct ((1 <=? n) && (n <=? Z.of_nat (length repos))) eqn:E.
    + destruct (index_in_range repos n E) as [-> [x Hx]].
      rewrite Hx. cbn. now rewrite IH, Hx.
    + exact IH.
  - induction nums as [|n nums IH]; [constructor|]. cbn.
    destruct ((1 <=? n) && (n <=? Z.of_nat (length repos))) eqn:E;
      [|exact IH].
    destruct (index_in_range repos n E) as [-> [x Hx]].
    rewrite Hx. constructor; [|exact IH].
    eapply nth_error_In, Hx.
Qed.




End Selection.

(** ** These properties on the scenarios *)

Lemma per_repo_manager_ends_witness :
  (length (stdin (with_alpha (Some ssh_url) [alpha_path; "1"; "4"])) < 5)%nat
  /\ exists res,
       per_repo_manager (env_of git_works false) 5
         (with_alpha (Some ssh_url) [alpha_path; "1"; "4"]) = Some res
       /\ (forall fuel', (5 <= fuel')%nat ->
           per_repo_manager (env_of git_works false) fuel'
             (with_alpha (Some ssh_url) [alpha_path; "1"; "4"]) = Some res)
       /\ (length (stdin (snd res))
           <= length (stdin (with_alpha (Some ssh_url) [alpha_path; "1"; "4"])))%nat.
Proof.
  split; [cbn; lia|].
  apply (per_repo_manager_ends (env_of git_works false) 5
           (with_alpha (Some ssh_url) [alpha_path; "1"; "4"])).
  cbn; lia.
Defined.


Lemma batch_visits_local_repositories_witness :
  path_isdir WORKSPACE (with_alpha (Some ssh_url) ["1"]) = true
  /\ stdin (with_alpha (Some ssh_url) ["1"]) = "1" :: []
  /\ "1" <> ""
  /\ PyStr.strip "1" <> "4"
  /\ fst (batch_workspace_manager (env_of git_works false)
            (with_alpha (Some ssh_url) ["1"])) = Ok tt
  /\ (StronglySorted ascending
        (headings
           (new_events (with_alpha (Some ssh_url) ["1"])
              (snd (batch_workspace_manager (env_of git_works false)
                      (with_alpha (Some ssh_url) ["1"])))))
      /\ NoDup
           (headings
              (new_events (with_alpha (Some ssh_url) ["1"])
                 (snd (batch_workspace_manager (env_of git_works false)
                         (with_alpha (Some ssh_url) ["1"])))))
      /\ forall d,
           In d
             (headings
                (new_events (with_alpha (Some ssh_url) ["1"])
                   (snd (batch_workspace_manager (env_of git_works false)
                           (with_alpha (Some ssh_url) ["1"])))))
           <-> is_local_repository d (with_alpha (Some ssh_url) ["1"])).
Proof.
  split; [vm_compute; reflexivity|].
  split; [reflexivity|].
  split; [discriminate|].
  split; [vm_compute; discriminate|].
  split; [vm_compute; reflexivity|].
  apply (batch_visits_local_repositories (env_of git_works false)
           (with_alpha (Some ssh_url) ["1"]) "1" []).
  - vm_compute; reflexivity.
  - reflexivity.
  - discriminate.
  - vm_compute; discriminate.
  - vm_compute; reflexivity.
Defined.

Lemma leaving_a_menu_witness :
  stdin (with_alpha (Some ssh_url) [""]) = "" :: []
  /\ (("" = "" \/ PyStr.strip "" = "4" ->
       fst (batch_workspace_manager (env_of git_works false)
              (with_alpha (Some ssh_url) [""])) = Ok tt
       /\ existsb is_exec
            (new_events (with_alpha (Some ssh_url) [""])
               (snd (batch_workspace_manager (env_of git_works false)
                       (with_alpha (Some ssh_url) [""])))) = false
       /\ fs (snd (batch_workspace_manager (env_of git_works false)
                     (with_alpha (Some ssh_url) [""])))
          = fs (with_alpha (Some ssh_url) [""])
       /\ remotes (snd (batch_workspace_manager (env_of git_works false)
                          (with_alpha (Some ssh_url) [""])))
          = remotes (with_alpha (Some ssh_url) [""]))
      /\ ("" = "" \/ (PyStr.strip "" <> "1" /\ PyStr.strip "" <> "2") ->
          fs (with_alpha (Some ssh_url) [""]) !! WORKSPACE <> Some RegularFile ->
          fst (clone_to_workspace (env_of git_works false)
                 (with_alpha (Some ssh_url) [""])) = Ok tt
          /\ existsb is_exec
               (new_events (with_alpha (Some ssh_url) [""])
                  (snd (clone_to_workspace (env_of git_works false)
                          (with_alpha (Some ssh_url) [""])))) = false
          /\ fs (snd (clone_to_workspace (env_of git_works false)
                        (with_alpha (Some ssh_url) [""])))
             = <[WORKSPACE := Directory]> (fs (with_alpha (Some ssh_url) [""]))
          /\ remotes (snd (clone_to_workspace (env_of git_works false)
                             (with_alpha (Some ssh_url) [""])))
             = remotes (with_alpha (Some ssh_url) [""]))).
Proof.
  split; [reflexivity|].
  apply (leaving_a_menu_runs_nothing (env_of git_works false)
           (with_alpha (Some ssh_url) [""]) "" []).
  reflexivity.
Defined.


(** The selection " 2,, 7 " of two repositories clones the second one. *)
Example selection_reports :
  clone_reports
    (new_events
       {| clock := 0; fs := fs empty_workspace; remotes := ∅;
          stdin := ["2"; " 2,, 7 "]; trace := [] |}
       (snd (clone_to_workspace (env_of git_works false)
               {| clock := 0; fs := fs empty_workspace; remotes := ∅;
                  stdin := ["2"; " 2,, 7 "]; trace := [] |})))
  = ["beta"].
Proof. vm_compute. reflexivity. Qed.
